(** * FinShield credit-risk API ([api/app.py]): normalisation, schema
      enforcement and risk mapping.

    Shallow embedding of the request pipeline of [api/app.py]: the
    helpers [band], [pd_to_score], [normalize_strings], [cast_schema],
    [validate_dtypes] and the handler [predict], with the part of Python
    and pandas they rest on.

    - Numbers.  Floats are idealised as exact numbers, without binary
      rounding: a probability is a rational ([Q]), a float held in a
      cell is a decimal ([Num.num]); Python's [round] is
      round-half-to-even; integers are those of [int64].
    - Strings.  A [str] is its UTF-8 bytes; whitespace and letter case
      are those of the ASCII range.
    - Frames.  A [pd.DataFrame] is the list of its columns, each with
      its name, its dtype and its cells.
    - The model artifact [PIPE] is a parameter: its feature order, and
      the probabilities it yields for a frame.

    Modules [Risk], [Text], [Num], [Frame] and [App] hold the program;
    [RiskFacts], [TextFacts], [NumFacts] and [AppFacts] the proofs. *)

From Stdlib Require Import ZArith QArith Qround Bool List Ascii String Lia.
From Stdlib Require Import DecimalFacts DecimalString DecimalPos DecimalZ.
Import ListNotations.

Local Open Scope Z_scope.

(** ** RiskMapper *)

Module Risk.

Local Open Scope Q_scope.

(** [a < b] on floats, as a boolean. *)
Definition Qltb (a b : Q) : bool := negb (Qle_bool b a).

(** [api/app.py], [band]. *)
Definition band (pd_ : Q) : string :=
  if Qltb pd_ 0.10 then "Very Low"%string
  else if Qltb pd_ 0.20 then "Low"%string
  else if Qltb pd_ 0.35 then "Medium"%string
  else if Qltb pd_ 0.50 then "High"%string
  else "Very High"%string.

(** Python's built-in [round(x)] with one argument: the nearest integer,
    ties going to the even one. *)
Definition py_round (x : Q) : Z :=
  let f := Qfloor x in
  match Qcompare (x - inject_Z f) (1 # 2) with
  | Lt => f
  | Gt => (f + 1)%Z
  | Eq => if Z.even f then f else (f + 1)%Z
  end.

(** [api/app.py], [pd_to_score]. *)
Definition pd_to_score (pd_ : Q) : Z :=
  let score := (900 - py_round (pd_ * 600))%Z in
  Z.max 300 (Z.min 900 score).

(** The formula of the specification: round first, clamp second. *)
Definition spec_score (p : Q) : Z :=
  Z.max 300 (Z.min 900 (py_round (900 - p * 600))).

(** What it means for the integer [n] to be [x] rounded half-to-even. *)
Definition rounds_to (x : Q) (n : Z) : Prop :=
  (inject_Z n - (1#2) < x /\ x < inject_Z n + (1#2))
  \/ (x == inject_Z n + (1#2) /\ Z.even n = true)
  \/ (x == inject_Z n - (1#2) /\ Z.even n = true).

End Risk.

(** ** Python strings

    A Python [str] is modelled by its UTF-8 bytes ([string]).  The only
    non-ASCII character the code names is the rupee sign, three bytes in
    UTF-8; whitespace and letter case are those of the ASCII range. *)

Module Text.

Local Open Scope char_scope.
Local Open Scope string_scope.

(** The characters [str.strip()] removes (ASCII range): tab, line feed,
    vertical tab, form feed, carriage return, the separators 0x1c-0x1f
    and the space. *)
Definition is_space (c : ascii) : bool :=
  let n := nat_of_ascii c in
  ((9 <=? n) && (n <=? 13) || (28 <=? n) && (n <=? 32))%nat.

Fixpoint lstrip (s : string) : string :=
  match s with
  | "" => ""
  | String c r => if is_space c then lstrip r else s
  end.

Fixpoint rstrip (s : string) : string :=
  match s with
  | "" => ""
  | String c r =>
      match rstrip r with
      | "" => if is_space c then "" else String c ""
      | r' => String c r'
      end
  end.

(** [str.strip()]. *)
Definition strip (s : string) : string := rstrip (lstrip s).

Definition lower_char (c : ascii) : ascii :=
  let n := nat_of_ascii c in
  if ((65 <=? n) && (n <=? 90))%nat then ascii_of_nat (n + 32) else c.

(** [str.lower()]. *)
Fixpoint lower (s : string) : string :=
  match s with
  | "" => ""
  | String c r => String (lower_char c) (lower r)
  end.

(** The rupee sign U+20B9 in UTF-8. *)
Definition rupee : string := "₹".

(** [re.sub("[₹$,]", "", s)]: every rupee sign, dollar sign and comma is
    deleted. *)
Fixpoint remove_symbols (s : string) : string :=
  match s with
  | "" => ""
  | String c r =>
      if Ascii.eqb c "$"%char || Ascii.eqb c ","%char then remove_symbols r
      else
        match r with
        | String c1 (String c2 r') =>
            if Ascii.eqb c "226"%char && Ascii.eqb c1 "130"%char
               && Ascii.eqb c2 "185"%char
            then remove_symbols r'
            else String c (remove_symbols r)
        | _ => String c (remove_symbols r)
        end
  end.

(** [s.endswith("%")]. *)
Fixpoint endswith_pct (s : string) : bool :=
  match s with
  | "" => false
  | String c "" => Ascii.eqb c "%"%char
  | String _ r => endswith_pct r
  end.

(** [s.removesuffix("%")]. *)
Fixpoint removesuffix_pct (s : string) : string :=
  match s with
  | "" => ""
  | String c "" => if Ascii.eqb c "%"%char then "" else s
  | String c r => String c (removesuffix_pct r)
  end.

(** The set [placeholders] of [normalize_strings]. *)
Definition placeholders : list string :=
  [""; "none"; "null"; "nan"; "na"; "n/a"].

(** Membership in a list of strings ([in], [isin]). *)
Definition isin (s : string) (l : list string) : bool :=
  existsb (String.eqb s) l.

(** The text is empty or starts with a character that is not blank. *)
Definition head_not_space (s : string) : Prop :=
  match s with
  | "" => True
  | String c _ => is_space c = false
  end.

End Text.

(** ** Numbers held in cells

    A float held in a cell is an exact decimal: a sign, the digits
    before the point and the digits after it.  Parsing a decimal literal
    and dividing by 100 are then exact, and [repr] prints the digits
    back ([repr] of a float always parses back to that float). *)

Module Num.

Local Open Scope char_scope.
Local Open Scope string_scope.

Record num : Set := mk_num {
  neg : bool;
  ipart : Decimal.uint;   (* digits before the point, most significant first *)
  fpart : Decimal.uint    (* digits after the point *)
}.

(** Canonical digits: no leading zero before the point, no trailing
    zero after it. *)
Definition normal (n : num) : num :=
  mk_num (neg n) (Decimal.nzhead (ipart n)) (DecimalFacts.nztail (fpart n)).

(** [repr] of a float: ["-"] if negative, then the digits around the
    point, ["0"] standing for an empty side (["1200.0"], ["0.12"]). *)
Definition render (n : num) : string :=
  (if neg n then "-" else "")
    ++ NilZero.string_of_uint (ipart n) ++ "."
    ++ NilZero.string_of_uint (fpart n).

Definition digit_of_char (c : ascii) : option (Decimal.uint -> Decimal.uint) :=
  match c with
  | "0"%char => Some Decimal.D0 | "1"%char => Some Decimal.D1
  | "2"%char => Some Decimal.D2 | "3"%char => Some Decimal.D3
  | "4"%char => Some Decimal.D4 | "5"%char => Some Decimal.D5
  | "6"%char => Some Decimal.D6 | "7"%char => Some Decimal.D7
  | "8"%char => Some Decimal.D8 | "9"%char => Some Decimal.D9
  | _ => None
  end.

(** The longest prefix of digits, and what follows it. *)
Fixpoint span_digits (s : string) : Decimal.uint * string :=
  match s with
  | "" => (Decimal.Nil, "")
  | String c r =>
      match digit_of_char c with
      | Some d => let (u, t) := span_digits r in (d u, t)
      | None => (Decimal.Nil, s)
      end
  end.

(** The parser's own whitespace: space, tab, line feed, vertical tab,
    form feed, carriage return. *)
Definition is_cspace (c : ascii) : bool :=
  let n := nat_of_ascii c in
  ((9 <=? n) && (n <=? 13) || (n =? 32))%nat.

Fixpoint skip_spaces (s : string) : string :=
  match s with
  | "" => ""
  | String c r => if is_cspace c then skip_spaces r else s
  end.

(** The point moved one digit to the left: the number over ten. *)
Definition shift_left (n : num) : num :=
  match List.rev (DecimalFacts.to_list (ipart n)) with
  | [] => mk_num (neg n) Decimal.Nil (Decimal.D0 (fpart n))
  | d :: r =>
      mk_num (neg n) (DecimalFacts.of_list (List.rev r))
        (DecimalFacts.of_list (d :: DecimalFacts.to_list (fpart n)))
  end.

(** The point moved one digit to the right: the number times ten. *)
Definition shift_right (n : num) : num :=
  match DecimalFacts.to_list (fpart n) with
  | [] =>
      mk_num (neg n)
        (DecimalFacts.of_list
           (DecimalFacts.to_list (ipart n) ++ [DecimalFacts.d0]))
        Decimal.Nil
  | d :: r =>
      mk_num (neg n)
        (DecimalFacts.of_list (DecimalFacts.to_list (ipart n) ++ [d]))
        (DecimalFacts.of_list r)
  end.

(** The number times [10 ^ e]. *)
Definition scale10 (e : Z) (n : num) : num :=
  match e with
  | Z0 => n
  | Zpos p => Nat.iter (Pos.to_nat p) shift_right n
  | Zneg p => Nat.iter (Pos.to_nat p) shift_left n
  end.

(** An exponent part, ["e"] or ["E"], an optional sign and at least one
    digit: its value and what follows it.  Without a digit nothing is
    consumed. *)
Definition read_exponent (s : string) : Z * string :=
  match s with
  | String c r =>
      if Ascii.eqb c "e"%char || Ascii.eqb c "E"%char then
        let '(esg, r1) :=
          match r with
          | String "-"%char r' => (true, r')
          | String "+"%char r' => (false, r')
          | _ => (false, r)
          end in
        let '(ed, r2) := span_digits r1 in
        match ed with
        | Decimal.Nil => (0%Z, s)
        | _ => (if esg then (- Z.of_uint ed)%Z else Z.of_uint ed, r2)
        end
      else (0%Z, s)
  | "" => (0%Z, s)
  end.

(** The float parser behind [pd.to_numeric] on a string: optional
    blanks, an optional sign, digits with an optional point (at least
    one digit in all), an optional exponent, optional blanks, and
    nothing else.  [None] is a parse failure, which [errors="coerce"]
    turns into NaN; the spellings of infinity, which have no exact
    decimal, are parse failures here. *)
Definition parse_float (s : string) : option num :=
  let s0 := skip_spaces s in
  let '(sg, s1) :=
    match s0 with
    | String "-"%char r => (true, r)
    | String "+"%char r => (false, r)
    | _ => (false, s0)
    end in
  let '(ip, s2) := span_digits s1 in
  let '(fp, s3) :=
    match s2 with
    | String "."%char r => span_digits r
    | _ => (Decimal.Nil, s2)
    end in
  match ip, fp with
  | Decimal.Nil, Decimal.Nil => None
  | _, _ =>
      let '(e, s4) := read_exponent s3 in
      match skip_spaces s4 with
      | "" => Some (normal (scale10 e (mk_num sg ip fp)))
      | _ => None
      end
  end.

(** An integer as a float. *)
Definition of_Z (z : Z) : num :=
  normal (mk_num (z <? 0)%Z (Decimal.abs (Z.to_int z)) Decimal.Nil).

(** [x / 100.0]. *)
Definition div100 (n : num) : num := normal (shift_left (shift_left n)).

(** The rational a decimal denotes: its digits read as one integer,
    over the power of ten that counts the digits after the point. *)
Definition digit_val (d : DecimalFacts.digits) : Z :=
  match d with
  | DecimalFacts.d0 => 0 | DecimalFacts.d1 => 1 | DecimalFacts.d2 => 2
  | DecimalFacts.d3 => 3 | DecimalFacts.d4 => 4 | DecimalFacts.d5 => 5
  | DecimalFacts.d6 => 6 | DecimalFacts.d7 => 7 | DecimalFacts.d8 => 8
  | DecimalFacts.d9 => 9
  end.

Definition lvalue (l : list DecimalFacts.digits) : Z :=
  fold_left (fun a d => (10 * a + digit_val d)%Z) l 0%Z.

Fixpoint pow10 (k : nat) : positive :=
  match k with
  | O => 1
  | S k' => 10 * pow10 k'
  end.

Definition to_Q (n : num) : Q :=
  let m := lvalue (DecimalFacts.to_list (ipart n)
                   ++ DecimalFacts.to_list (fpart n))%list in
  Qmake (if neg n then - m else m)
        (pow10 (List.length (DecimalFacts.to_list (fpart n)))).

(** The characters [render] writes: digits, the sign, the point. *)
Definition numeric_char (c : ascii) : bool :=
  match digit_of_char c with
  | Some _ => true
  | None => Ascii.eqb c "-"%char || Ascii.eqb c "."%char
  end.

Fixpoint all_chars (p : ascii -> bool) (s : string) : bool :=
  match s with
  | "" => true
  | String c r => p c && all_chars p r
  end.

End Num.

(** ** Records and data frames *)

Module Frame.

Local Open Scope string_scope.

(** A value of a request row or of a frame cell. *)
Inductive value : Set :=
| VNone                   (* JSON null, Python [None] *)
| VNaN                    (* [np.nan], the missing marker of pandas *)
| VBool (b : bool)
| VInt (z : Z)
| VNum (x : Num.num)      (* a float *)
| VStr (s : string).

(** One request row, [Dict[str, Any]]: keys in insertion order. *)
Definition record : Set := list (string * value).

(** [row.get(k)]. *)
Fixpoint row_get (r : record) (k : string) : option value :=
  match r with
  | [] => None
  | (k', v) :: r' => if String.eqb k' k then Some v else row_get r' k
  end.

(** Column types: [object], [bool], [int64], [float64]. *)
Inductive dtype : Set := DObject | DBool | DInt | DFloat.

Record column : Set := mk_col {
  col_name : string;
  col_dtype : dtype;
  col_cells : list value
}.

(** A [pd.DataFrame]: its columns, left to right. *)
Definition frame : Set := list column.

Definition columns (df : frame) : list string := map col_name df.

(** [c in df.columns]. *)
Definition has_column (df : frame) (c : string) : bool :=
  Text.isin c (columns df).

(** [df[c]], when the column exists. *)
Fixpoint get_column (df : frame) (c : string) : option column :=
  match df with
  | [] => None
  | col :: df' =>
      if String.eqb (col_name col) c then Some col else get_column df' c
  end.

(** [df[c].iloc[i]], when the column and the row exist. *)
Definition cell_at (df : frame) (c : string) (i : nat) : option value :=
  match get_column df c with
  | Some col => nth_error (col_cells col) i
  | None => None
  end.

(** [pd.isna] on one cell. *)
Definition isna (v : value) : bool :=
  match v with
  | VNone | VNaN => true
  | _ => false
  end.

(** [str(v)], which is also what [astype(str)] puts in each cell. *)
Definition py_str (v : value) : string :=
  match v with
  | VNone => "None"
  | VNaN => "nan"
  | VBool true => "True"
  | VBool false => "False"
  | VInt z => NilZero.string_of_int (Z.to_int z)
  | VNum x => Num.render x
  | VStr s => s
  end.

(** *** Building a frame from the rows: [pd.DataFrame(rows)] *)

Definition is_bool (v : value) : bool :=
  match v with VBool _ => true | _ => false end.

Definition is_int (v : value) : bool :=
  match v with VInt _ => true | _ => false end.

Definition is_numeric_or_null (v : value) : bool :=
  match v with
  | VInt _ | VNum _ | VNone | VNaN => true
  | _ => false
  end.

Definition is_none (v : value) : bool :=
  match v with VNone => true | _ => false end.

(** An integer or a null stored in a [float64] column. *)
Definition as_float_cell (v : value) : value :=
  match v with
  | VInt z => VNum (Num.of_Z z)
  | VNone => VNaN
  | _ => v
  end.

(** Type inference of pandas on the values of one column: all booleans
    give [bool]; all integers give [int64]; numbers with nulls give
    [float64], the nulls becoming NaN (a column of [None] only stays
    [object]); anything else is [object] and keeps the Python values. *)
Definition infer_column (name : string) (cells : list value) : column :=
  if forallb is_bool cells then mk_col name DBool cells
  else if forallb is_int cells then mk_col name DInt cells
  else if forallb is_numeric_or_null cells && negb (forallb is_none cells)
  then mk_col name DFloat (map as_float_cell cells)
  else mk_col name DObject cells.

(** The keys of the rows in order of first appearance. *)
Definition add_key (seen : list string) (kv : string * value) : list string :=
  if Text.isin (fst kv) seen then seen else seen ++ [fst kv].

Definition column_names (rows : list record) : list string :=
  fold_left (fun seen r => fold_left add_key r seen) rows [].

(** A row without the key has NaN in that column. *)
Definition raw_cells (rows : list record) (k : string) : list value :=
  map (fun r => match row_get r k with Some v => v | None => VNaN end) rows.

Definition DataFrame (rows : list record) : frame :=
  map (fun k => infer_column k (raw_cells rows k)) (column_names rows).

(** [df.drop(columns=[c])]. *)
Definition drop_column (df : frame) (c : string) : frame :=
  filter (fun col => negb (String.eqb (col_name col) c)) df.

End Frame.

(** ** The pipeline of [api/app.py] *)

Module App.

Import Frame.
Local Open Scope string_scope.

(** [NUMERIC_FEATURES]. *)
Definition NUMERIC_FEATURES : list string :=
  ["age"; "avg_recharge_amt"; "recharge_freq"; "data_usage_MB";
   "calls_peak_hours"; "avg_days_late"; "payment_delay_ratio";
   "avg_payment_due"; "avg_payment_made"; "payment_to_due_ratio";
   "sms_bank_count"; "sms_otp_count"; "sms_other_count";
   "sms_promotional_count"; "sms_upi_count"; "sms_fin_txn_count";
   "cart_abandonment_rate"; "avg_order_value"; "return_rate";
   "geo_variance_score"; "months_active"; "employer_count"].

(** [s.where(cond, other)] on aligned series. *)
Fixpoint where_ {A : Type} (s : list A) (cond : list bool) (other : list A)
  : list A :=
  match s, cond, other with
  | x :: s', b :: cond', y :: other' =>
      (if b then x else y) :: where_ s' cond' other'
  | _, _, _ => []
  end.

(** A float series entry as a cell: a failed parse is NaN. *)
Definition num_cell (o : option Num.num) : value :=
  match o with
  | Some x => VNum x
  | None => VNaN
  end.

Definition notna_num (o : option Num.num) : bool :=
  match o with Some _ => true | None => false end.

(** [out[col].astype(str).str.strip()]. *)
Definition stripped (cells : list value) : list string :=
  map Text.strip (map py_str cells).

(** First loop of [normalize_strings] on one column: placeholders
    become NaN, every other cell its stripped text. *)
Definition placeholders_col (c : column) : column :=
  match col_dtype c with
  | DObject =>
      let s := stripped (col_cells c) in
      let isph := map (fun x => Text.isin (Text.lower x) Text.placeholders) s in
      mk_col (col_name c) DObject
        (where_ (map VStr s) (map negb isph) (map (fun _ => VNaN) s))
  | _ => c
  end.

(** Second loop of [normalize_strings] on one column: cells whose text
    parses as a number are replaced by it. *)
Definition numeric_like_col (c : column) : column :=
  match col_dtype c with
  | DObject =>
      let s := stripped (col_cells c) in
      let s2 := map Text.remove_symbols s in
      let pct := map Text.endswith_pct s2 in
      let s2 := where_ s2 (map negb pct) (map Text.removesuffix_pct s2) in
      let nums := map Num.parse_float s2 in
      let nums :=
        where_ nums (map negb pct) (map (option_map Num.div100) nums) in
      mk_col (col_name c)
        (if forallb notna_num nums then DFloat else DObject)
        (where_ (map num_cell nums) (map notna_num nums) (col_cells c))
  | _ => c
  end.

(** [normalize_strings]. *)
Definition normalize_strings (df : frame) : frame :=
  map numeric_like_col (map placeholders_col df).

(** The first rule of the specification on one cell of a textual
    column: strip, then compare case-insensitively with the
    placeholders. *)
Definition placeholder_cell (v : value) : value :=
  let s := Text.strip (py_str v) in
  if Text.isin (Text.lower s) Text.placeholders then VNaN else VStr s.

(** The candidate numeric string of a stripped text, and whether it
    carried a final percent sign. *)
Definition candidate (s : string) : string * bool :=
  let s2 := Text.remove_symbols s in
  let pct := Text.endswith_pct s2 in
  (if pct then Text.removesuffix_pct s2 else s2, pct).

(** The number the second loop of [normalize_strings] reads in one
    cell, if any. *)
Definition parsed_num (w : value) : option Num.num :=
  let (cand, pct) := candidate (Text.strip (py_str w)) in
  match Num.parse_float cand with
  | Some x => Some (if pct then Num.div100 x else x)
  | None => None
  end.

(** The second loop of [normalize_strings] on one cell. *)
Definition numeric_like_cell (w : value) : value :=
  match parsed_num w with
  | Some x => VNum x
  | None => w
  end.

(** The three rules of the specification on one cell of a textual
    column: placeholder to missing; else symbols and a final percent
    sign stripped, the rest parsed, the percent scale applied to the
    parsed number; else the stripped text kept. *)
Definition normalize_cell (v : value) : value :=
  match placeholder_cell v with
  | VStr s =>
      let (cand, pct) := candidate s in
      match Num.parse_float cand with
      | Some x => VNum (if pct then Num.div100 x else x)
      | None => VStr s
      end
  | w => w
  end.

(** Whether the cell comes out of [normalize_cell] as a number. *)
Definition parses (v : value) : bool :=
  match normalize_cell v with
  | VNum _ => true
  | _ => false
  end.

(** [pd.to_numeric(..., errors="coerce")] on one cell. *)
Definition to_numeric (v : value) : option Num.num :=
  match v with
  | VNone | VNaN => None
  | VBool b => Some (Num.of_Z (if b then 1 else 0))
  | VInt z => Some (Num.of_Z z)
  | VNum x => Some x
  | VStr s => Num.parse_float s
  end.

(** [0.0]. *)
Definition zero : Num.num := Num.of_Z 0.

Section Pipeline.

(** [FEATURE_ORDER], read from the model artifact when the module is
    loaded. *)
Variable FEATURE_ORDER : list string.

(** [CATEGORICAL_FEATURES]. *)
Definition CATEGORICAL_FEATURES : list string :=
  match FEATURE_ORDER with
  | [] => ["location"; "employment_type"; "salary_band"]
  | _ => filter (fun c => negb (Text.isin c NUMERIC_FEATURES)) FEATURE_ORDER
  end.

(** Numeric step of [cast_schema] on one column: parse, [float64],
    [fillna(0.0)]. *)
Definition cast_numeric_col (c : column) : column :=
  if Text.isin (col_name c) NUMERIC_FEATURES then
    mk_col (col_name c) DFloat
      (map (fun v => match to_numeric v with
                     | Some x => VNum x
                     | None => VNum zero
                     end) (col_cells c))
  else c.

(** Categorical step of [cast_schema] on one column: [object], and
    ["unknown"] where missing. *)
Definition cast_categorical_col (c : column) : column :=
  if Text.isin (col_name c) CATEGORICAL_FEATURES then
    mk_col (col_name c) DObject
      (map (fun v => if isna v then VStr "unknown" else v) (col_cells c))
  else c.

(** [cast_schema].  Each assignment rewrites its own column only, so the
    sorted order of the two loops does not show in the result. *)
Definition cast_schema (df : frame) : frame :=
  map cast_categorical_col (map cast_numeric_col df).

(** What the [HTTPException]s of the module carry. *)
Inductive error : Type :=
| NoRows                                  (* "No rows provided" *)
| MissingExpected (missing expected : list string)
    (* "Missing required columns: ... Expected exactly ..." *)
| MissingColumns (missing : list string)  (* "Missing required columns: ..." *)
| NotNumeric (wrong : list (string * dtype))
    (* "Numeric columns not numeric after casting: ..." *)
| InferenceError.                         (* "Inference error: ..." *)

(** [np.issubdtype(dtype, np.number)]. *)
Definition is_number_dtype (t : dtype) : bool :=
  match t with
  | DInt | DFloat => true
  | DObject | DBool => false
  end.

(** [[c for c in FEATURE_ORDER if c not in df.columns]]. *)
Definition missing_columns (df : frame) : list string :=
  filter (fun c => negb (has_column df c)) FEATURE_ORDER.

(** [validate_dtypes]: [None] when it returns, the error when it
    raises. *)
Definition validate_dtypes (df : frame) : option error :=
  match (match FEATURE_ORDER with
         | [] => []
         | _ => missing_columns df
         end) with
  | (_ :: _) as missing => Some (MissingColumns missing)
  | [] =>
      let wrong :=
        map (fun c => (col_name c, col_dtype c))
          (filter (fun c => Text.isin (col_name c) NUMERIC_FEATURES
                            && negb (is_number_dtype (col_dtype c))) df) in
      match wrong with
      | [] => None
      | _ => Some (NotNumeric wrong)
      end
  end.

(** The errors that report missing required columns. *)
Definition is_missing_error (e : error) : bool :=
  match e with
  | MissingExpected _ _ | MissingColumns _ => true
  | _ => false
  end.

(** The label columns [predict] drops. *)
Definition label_columns : list string := ["default_flag"; "target"; "label"].

Definition drop_labels (df : frame) : frame :=
  fold_left (fun d label_col =>
               if has_column d label_col then drop_column d label_col else d)
    label_columns df.

(** [df[FEATURE_ORDER]], every name being a column of [df]. *)
Definition select_columns (df : frame) : frame :=
  flat_map (fun c => match get_column df c with
                     | Some col => [col]
                     | None => []
                     end) FEATURE_ORDER.

(** One entry of the response. *)
Record result : Set := mk_result {
  user_id : string;
  pd : Q;
  risk_band : string;
  credit_score : Z
}.

(** The frame handed to the model, or the error raised on the way:
    [predict] up to and including [validate_dtypes]. *)
Definition prepare (rows : list record) : error + frame :=
  match rows with
  | [] => inl NoRows
  | _ =>
      let df := DataFrame rows in
      let df := drop_labels df in
      let df := normalize_strings df in
      match (match FEATURE_ORDER with
             | [] => inr df
             | _ =>
                 match missing_columns df with
                 | [] => inr (select_columns df)
                 | missing => inl (MissingExpected missing FEATURE_ORDER)
                 end
             end) with
      | inl e => inl e
      | inr df =>
          let df := cast_schema df in
          match validate_dtypes df with
          | Some e => inl e
          | None => inr df
          end
      end
  end.

(** The model behind [PIPE], as the [try] block of [predict] sees it:
    the probabilities [pd_vals] it yields for a frame, or [None] when
    the call raises. *)
Variable pd_vals_of : frame -> option (list Q).

(** The loop over [zip(req.rows, pd_vals)]. *)
Fixpoint build_results (rows : list record) (pd_vals : list Q) : list result :=
  match rows, pd_vals with
  | row :: rows', pd_ :: pd_vals' =>
      mk_result
        (py_str (match row_get row "user_id" with
                 | Some v => v
                 | None => VStr ""
                 end))
        pd_ (Risk.band pd_) (Risk.pd_to_score pd_)
      :: build_results rows' pd_vals'
  | _, _ => []
  end.

(** [predict]. *)
Definition predict (rows : list record) : error + list result :=
  match prepare rows with
  | inl e => inl e
  | inr df =>
      match pd_vals_of df with
      | None => inl InferenceError
      | Some pd_vals => inr (build_results rows pd_vals)
      end
  end.

End Pipeline.

(** The identifier the specification gives a row: its "user_id" when it
    has one, as text, and the empty string otherwise. *)
Definition identifier_of (row : record) : string :=
  match row_get row "user_id" with
  | Some v => py_str v
  | None => ""
  end.

(** The names that are not label columns. *)
Definition not_label (k : string) : bool :=
  negb (Text.isin k label_columns).

(** A row without its label entries. *)
Definition without_labels (row : record) : record :=
  filter (fun kv => not_label (fst kv)) row.

(** *** Sample inputs *)

(** A model that answers 0.42 for the one row it is given. *)
Definition constant_model : frame -> option (list Q) :=
  fun _ => Some [0.42%Q].

Definition example_row : record :=
  [("user_id", VStr "u1"); ("age", VStr "45");
   ("avg_recharge_amt", VStr "₹1,500"); ("target", VInt 1)].

(** A frame with one textual column declared numeric. *)
Definition example_frame : frame :=
  [mk_col "age" DObject [VNaN; VStr "abc"; VStr "45"]].

End App.

(** ** The other endpoints, and notions used to state further facts *)

Module More.

Import Frame App.
Local Open Scope string_scope.

(** The five labels of [band], from the least to the most risky. *)
Definition band_rank (label : string) : nat :=
  if String.eqb label "Very Low" then 0
  else if String.eqb label "Low" then 1
  else if String.eqb label "Medium" then 2
  else if String.eqb label "High" then 3
  else 4.

Section Endpoints.

Variable FEATURE_ORDER : list string.

(** The answer of [root]. *)
Record health : Set := mk_health {
  ok : bool;
  feature_order_known : bool
}.

(** [root]: [bool(FEATURE_ORDER)] is true for a non-empty list. *)
Definition root : health :=
  mk_health true (match FEATURE_ORDER with [] => false | _ => true end).

(** The answer of [required_features]. *)
Record features : Set := mk_features {
  required : list string;
  count : nat
}.

(** [required_features]. *)
Definition required_features : features :=
  mk_features FEATURE_ORDER (List.length FEATURE_ORDER).

End Endpoints.

(** Every column of the frame has [n] cells. *)
Definition has_rows (n : nat) (df : frame) : Prop :=
  forall c, In c df -> List.length (col_cells c) = n.

(** The cell is a float. *)
Definition is_float_cell (v : value) : bool :=
  match v with VNum _ => true | _ => false end.

(** A row reduced to the keys that satisfy [keep]. *)
Definition restrict_keys (keep : string -> bool) (row : record) : record :=
  filter (fun kv => keep (fst kv)) row.

(** The characters a decimal literal is made of, blanks included. *)
Definition literal_char (c : ascii) : bool :=
  match Num.digit_of_char c with
  | Some _ => true
  | None =>
      Num.is_cspace c
      || Ascii.eqb c "+"%char || Ascii.eqb c "-"%char
      || Ascii.eqb c "."%char
      || Ascii.eqb c "e"%char || Ascii.eqb c "E"%char
  end.

(** The value a row holds under a key, NaN when it has none: the cell
    of the row in the frame of the raw rows. *)
Definition raw_value (r : record) (k : string) : value :=
  match row_get r k with
  | Some v => v
  | None => VNaN
  end.

(** The number [normalize_strings] reads in a value, 0.0 when it reads
    none. *)
Definition numeric_reading (v : value) : Num.num :=
  match normalize_cell v with
  | VNum x => x
  | _ => zero
  end.

(** A categorical cell after [normalize_strings] and [cast_schema]. *)
Definition categorical_reading (v : value) : value :=
  match normalize_cell v with
  | VNaN => VStr "unknown"
  | w => w
  end.

(** *** Sample inputs *)

Definition sample_order : list string := ["age"; "location"].

Definition sample_rows : list record :=
  [[("user_id", VStr "u1"); ("age", VStr "45");
    ("location", VStr " Pune "); ("note", VStr "x")];
   [("user_id", VInt 7); ("age", VInt 30);
    ("location", VNone); ("target", VInt 1)]].

Definition sample_model : frame -> option (list Q) :=
  fun _ => Some [0.42%Q; 0.05%Q].

(** The frame the sample rows give the model. *)
Definition sample_frame : frame :=
  [mk_col "age" DFloat [VNum (Num.of_Z 45); VNum (Num.of_Z 30)];
   mk_col "location" DObject [VStr "Pune"; VStr "unknown"]].

(** The keys [predict] reads with the sample order. *)
Definition sample_keep (k : string) : bool :=
  Text.isin k ["user_id"; "age"; "location"].

End More.

(** * Theorems *)

From Stdlib Require Import Lqa.

Module RiskFacts.
Import Risk.
Local Open Scope Q_scope.

Lemma py_round_spec (x : Q) : rounds_to x (py_round x).
Proof.
  unfold rounds_to, py_round.
  pose proof (Qfloor_le x) as Hlo.
  pose proof (Qlt_floor x) as Hhi.
  rewrite inject_Z_plus in Hhi.
  change (inject_Z 1) with 1 in Hhi.
  set (f := Qfloor x) in *.
  destruct (Qcompare_spec (x - inject_Z f) (1#2)) as [He|Hl|Hg].
  - destruct (Z.even f) eqn:Ev.
    + right; left. split; [lra | assumption].
    + right; right. rewrite inject_Z_plus. change (inject_Z 1) with 1.
      split; [lra|].
      rewrite Z.even_add, Ev. reflexivity.
  - left. split; lra.
  - left. rewrite inject_Z_plus. change (inject_Z 1) with 1. split; lra.
Qed.

Lemma rounds_to_mono (x y : Q) (n m : Z) :
  rounds_to x n -> rounds_to y m -> x <= y -> (n <= m)%Z.
Proof.
  intros Hx Hy Hxy.
  destruct (Z_le_gt_dec n m) as [|Hgt]; [assumption|exfalso].
  assert (Hnm : inject_Z m + 1 <= inject_Z n).
  { change 1 with (inject_Z 1). rewrite <- inject_Z_plus.
    rewrite <- Zle_Qle. lia. }
  assert (Hcase : (n = m + 1)%Z \/ inject_Z m + 2 <= inject_Z n).
  { destruct (Z.eq_dec n (m + 1)) as [|Hne]; [left; assumption|right].
    change 2 with (inject_Z 2). rewrite <- inject_Z_plus.
    rewrite <- Zle_Qle. lia. }
  unfold rounds_to in Hx, Hy.
  destruct Hcase as [->|Hfar].
  - rewrite inject_Z_plus in Hx. change (inject_Z 1) with 1 in Hx.
    rewrite Z.even_add in Hx.
    destruct Hx as [[? ?]|[[? ?]|[? Ex]]];
      destruct Hy as [[? ?]|[[? Ey]|[? ?]]]; try lra.
    rewrite Ey in Ex. discriminate.
  - destruct Hx as [[? ?]|[[? ?]|[? ?]]];
      destruct Hy as [[? ?]|[[? ?]|[? ?]]]; lra.
Qed.

Lemma rounds_to_unique (x : Q) (n m : Z) :
  rounds_to x n -> rounds_to x m -> n = m.
Proof.
  intros Hn Hm.
  apply Z.le_antisymm; eapply rounds_to_mono; eauto; apply Qle_refl.
Qed.

Lemma py_round_mono (x y : Q) : x <= y -> (py_round x <= py_round y)%Z.
Proof.
  intro H. eapply rounds_to_mono; eauto using py_round_spec.
Qed.

Lemma py_round_sub_even (k : Z) (x : Q) :
  Z.even k = true ->
  py_round (inject_Z k - x) = (k - py_round x)%Z.
Proof.
  intro Ek.
  apply (rounds_to_unique (inject_Z k - x)); [apply py_round_spec|].
  pose proof (py_round_spec x) as Hx.
  unfold rounds_to in *.
  unfold Z.sub. rewrite inject_Z_plus, inject_Z_opp.
  rewrite Z.even_add, Z.even_opp, Ek.
  destruct Hx as [[? ?]|[[? Ev]|[? Ev]]].
  - left. split; lra.
  - right; right. rewrite Ev. split; [lra|reflexivity].
  - right; left. rewrite Ev. split; [lra|reflexivity].
Qed.

Lemma Qltb_lt (a b : Q) : Qltb a b = true <-> a < b.
Proof.
  unfold Qltb. rewrite negb_true_iff, <- not_true_iff_false, Qle_bool_iff.
  split; [apply Qnot_le_lt | apply Qlt_not_le].
Qed.

Lemma Qltb_ge (a b : Q) : Qltb a b = false <-> b <= a.
Proof.
  unfold Qltb. rewrite negb_false_iff. apply Qle_bool_iff.
Qed.

(** C4.  [band] partitions the probabilities at 0.10, 0.20, 0.35 and
    0.50: "Very Low" exactly below 0.10, "Low" exactly on [0.10, 0.20),
    "Medium" exactly on [0.20, 0.35), "High" exactly on [0.35, 0.50) and
    "Very High" exactly from 0.50 on; 0.10 itself is "Low". *)
Theorem band_thresholds : forall p : Q,
  (band p = "Very Low"%string <-> p < 0.10) /\
  (band p = "Low"%string <-> 0.10 <= p /\ p < 0.20) /\
  (band p = "Medium"%string <-> 0.20 <= p /\ p < 0.35) /\
  (band p = "High"%string <-> 0.35 <= p /\ p < 0.50) /\
  (band p = "Very High"%string <-> 0.50 <= p) /\
  band 0.10 = "Low"%string /\ band 0.10 <> "Very Low"%string.
Proof.
  intro p. unfold band.
  destruct (Qltb p 0.10) eqn:H1;
    [apply Qltb_lt in H1 | apply Qltb_ge in H1;
     destruct (Qltb p 0.20) eqn:H2;
     [apply Qltb_lt in H2 | apply Qltb_ge in H2;
      destruct (Qltb p 0.35) eqn:H3;
      [apply Qltb_lt in H3 | apply Qltb_ge in H3;
       destruct (Qltb p 0.50) eqn:H4;
       [apply Qltb_lt in H4 | apply Qltb_ge in H4]]]];
    (repeat split; intros; try discriminate; try reflexivity; try lra;
     try (exfalso; lra); try (exfalso; tauto)).
  all: try (match goal with H : _ /\ _ |- _ => destruct H end; exfalso; lra).
Qed.



End RiskFacts.

(** ** Strings *)

Module TextFacts.
Import Text.
Local Open Scope string_scope.

Lemma lstrip_head (s : string) : head_not_space (lstrip s).
Proof.
  induction s as [|c r IH]; simpl; [exact I|].
  destruct (is_space c) eqn:E; [exact IH | exact E].
Qed.

Lemma lstrip_fixed (s : string) : head_not_space s -> lstrip s = s.
Proof.
  destruct s as [|c r]; simpl; [reflexivity|]. now intros ->.
Qed.

Lemma rstrip_head (s : string) : head_not_space s -> head_not_space (rstrip s).
Proof.
  destruct s as [|c r]; simpl; [trivial|].
  intro Hc. destruct (rstrip r); simpl; [now rewrite Hc | exact Hc].
Qed.

Lemma rstrip_idem (s : string) : rstrip (rstrip s) = rstrip s.
Proof.
  induction s as [|c r IH]; simpl; [reflexivity|].
  destruct (rstrip r) as [|d r'] eqn:E.
  - destruct (is_space c) eqn:Ec; simpl; [reflexivity | now rewrite Ec].
  - change (rstrip (String c (String d r')))
      with (match rstrip (String d r') with
            | "" => if is_space c then "" else String c ""
            | String a b => String c (String a b)
            end).
    now rewrite IH.
Qed.

(** [strip] does nothing to a stripped text. *)
Lemma strip_idem (s : string) : strip (strip s) = strip s.
Proof.
  unfold strip.
  rewrite (lstrip_fixed (rstrip (lstrip s))).
  - apply rstrip_idem.
  - apply rstrip_head, lstrip_head.
Qed.

(** The bytes [remove_symbols] looks for are those of the rupee sign. *)
Lemma rupee_bytes :
  rupee = String "226"%char (String "130"%char (String "185"%char ""))
  /\ remove_symbols ("a" ++ rupee ++ "1,5$0") = "a150".
Proof. split; reflexivity. Qed.

End TextFacts.

(** ** Printing and parsing numbers *)

Module NumFacts.
Import Text Num.
Local Open Scope string_scope.

Lemma numeric_char_props (c : ascii) :
  numeric_char c = true ->
  is_space c = false /\ is_cspace c = false /\ lower_char c = c /\
  Ascii.eqb c "$"%char = false /\ Ascii.eqb c ","%char = false /\
  Ascii.eqb c "226"%char = false /\ Ascii.eqb c "%"%char = false.
Proof.
  destruct c as [[] [] [] [] [] [] [] []]; intro H;
    try discriminate H; repeat split; reflexivity.
Qed.

Lemma all_chars_app (p : ascii -> bool) (s t : string) :
  all_chars p (s ++ t) = all_chars p s && all_chars p t.
Proof.
  induction s as [|c r IH]; simpl; [reflexivity|].
  now rewrite IH, andb_assoc.
Qed.

Section NumericText.

Variable s : string.
Hypothesis Hs : all_chars numeric_char s = true.

Lemma numeric_lstrip : lstrip s = s.
Proof.
  destruct s as [|c r]; simpl in *; [reflexivity|].
  apply andb_true_iff in Hs. destruct Hs as [Hc _].
  apply numeric_char_props in Hc. now destruct Hc as [-> _].
Qed.

Lemma numeric_rstrip : rstrip s = s.
Proof.
  induction s as [|c r IH]; simpl in *; [reflexivity|].
  apply andb_true_iff in Hs. destruct Hs as [Hc Hr].
  rewrite (IH Hr). apply numeric_char_props in Hc. destruct Hc as [-> _].
  now destruct r.
Qed.

Lemma numeric_strip : strip s = s.
Proof. unfold strip. now rewrite numeric_lstrip, numeric_rstrip. Qed.

Lemma numeric_lower : lower s = s.
Proof.
  induction s as [|c r IH]; simpl in *; [reflexivity|].
  apply andb_true_iff in Hs. destruct Hs as [Hc Hr].
  rewrite (IH Hr). apply numeric_char_props in Hc.
  destruct Hc as [_ [_ [-> _]]]. reflexivity.
Qed.

Lemma numeric_remove_symbols : remove_symbols s = s.
Proof.
  induction s as [|c r IH]; simpl in *; [reflexivity|].
  apply andb_true_iff in Hs. destruct Hs as [Hc Hr].
  rewrite (IH Hr). apply numeric_char_props in Hc.
  destruct Hc as [_ [_ [_ [-> [-> [-> _]]]]]]. simpl.
  destruct r as [|c1 [|c2 r']]; reflexivity.
Qed.

Lemma numeric_endswith_pct : endswith_pct s = false.
Proof.
  induction s as [|c r IH]; simpl in *; [reflexivity|].
  apply andb_true_iff in Hs. destruct Hs as [Hc Hr].
  apply numeric_char_props in Hc.
  destruct Hc as [_ [_ [_ [_ [_ [_ Hp]]]]]].
  destruct r; [exact Hp | now apply IH].
Qed.

End NumericText.

Lemma string_of_uint_numeric (u : Decimal.uint) :
  all_chars numeric_char (NilEmpty.string_of_uint u) = true.
Proof. induction u; simpl; auto. Qed.

Lemma string_of_uint_zero_numeric (u : Decimal.uint) :
  all_chars numeric_char (NilZero.string_of_uint u) = true.
Proof.
  unfold NilZero.string_of_uint.
  destruct u; try reflexivity; apply string_of_uint_numeric.
Qed.

Lemma render_numeric (x : num) : all_chars numeric_char (render x) = true.
Proof.
  unfold render. rewrite !all_chars_app, !string_of_uint_zero_numeric.
  now destruct (neg x).
Qed.

Lemma render_not_placeholder (x : num) :
  isin (render x) placeholders = false.
Proof.
  destruct x as [[] ip fp]; unfold render; simpl; [reflexivity|].
  destruct ip; reflexivity.
Qed.

(** Reading back the digits that were printed. *)
Lemma span_digits_uint (u : Decimal.uint) (t : string) :
  match t with
  | "" => True
  | String c _ => digit_of_char c = None
  end ->
  span_digits (NilEmpty.string_of_uint u ++ t) = (u, t).
Proof.
  intro Ht.
  induction u; simpl; try (rewrite IHu; reflexivity).
  destruct t as [|c r]; simpl; [reflexivity | now rewrite Ht].
Qed.

Lemma span_digits_uint_zero (u : Decimal.uint) (t : string) :
  match t with
  | "" => True
  | String c _ => digit_of_char c = None
  end ->
  span_digits (NilZero.string_of_uint u ++ t)
  = (match u with Decimal.Nil => Decimal.D0 Decimal.Nil | _ => u end, t).
Proof.
  intro Ht. unfold NilZero.string_of_uint.
  destruct u; try (apply span_digits_uint; exact Ht).
  apply (span_digits_uint (Decimal.D0 Decimal.Nil) t Ht).
Qed.

Lemma append_empty (t : string) : t ++ "" = t.
Proof. induction t; simpl; congruence. Qed.

(** Parsing what [render] printed gives the number back, in canonical
    digits. *)
Lemma parse_float_render (x : num) : parse_float (render x) = Some (normal x).
Proof.
  destruct x as [sg ip fp]. unfold parse_float, render. simpl neg.
  simpl ipart. simpl fpart.
  set (F := NilZero.string_of_uint fp).
  assert (HF : span_digits F
               = (match fp with Decimal.Nil => Decimal.D0 Decimal.Nil | _ => fp end,
                  "")).
  { unfold F. rewrite <- (append_empty (NilZero.string_of_uint fp)).
    now apply span_digits_uint_zero. }
  assert (HI : span_digits (NilZero.string_of_uint ip ++ "." ++ F)
               = (match ip with Decimal.Nil => Decimal.D0 Decimal.Nil | _ => ip end,
                  "." ++ F)).
  { now apply span_digits_uint_zero. }
  assert (Hfinal :
    (let '(ip0, s2) := span_digits (NilZero.string_of_uint ip ++ "." ++ F) in
     let '(fp0, s3) :=
       match s2 with
       | String "."%char r => span_digits r
       | _ => (Decimal.Nil, s2)
       end in
     match ip0, fp0 with
     | Decimal.Nil, Decimal.Nil => None
     | _, _ =>
         let '(e, s4) := read_exponent s3 in
         match skip_spaces s4 with
         | "" => Some (normal (scale10 e (mk_num sg ip0 fp0)))
         | _ => None
         end
     end) = Some (normal (mk_num sg ip fp))).
  { rewrite HI. simpl. rewrite HF. unfold normal. simpl.
    destruct ip, fp; reflexivity. }
  destruct sg; simpl.
  - exact Hfinal.
  - destruct ip; simpl in *; exact Hfinal.
Qed.

Lemma normal_idem (x : num) : normal (normal x) = normal x.
Proof.
  unfold normal. simpl.
  now rewrite DecimalFacts.nzhead_involutive, DecimalFacts.nztail_involutive.
Qed.

Lemma parse_float_normal (s : string) (x : num) :
  parse_float s = Some x -> normal x = x.
Proof.
  unfold parse_float.
  destruct (match skip_spaces s with
            | String "-"%char r => (true, r)
            | String "+"%char r => (false, r)
            | _ => (false, skip_spaces s)
            end) as [sg s1].
  destruct (span_digits s1) as [ip s2].
  destruct (match s2 with
            | String "."%char r => span_digits r
            | _ => (Decimal.Nil, s2)
            end) as [fp s3].
  destruct (read_exponent s3) as [e s4].
  destruct (skip_spaces s4);
    destruct ip, fp; try discriminate; intros [= <-]; apply normal_idem.
Qed.

Lemma div100_normal (x : num) : normal (div100 x) = div100 x.
Proof. apply normal_idem. Qed.

(** *** The value of a decimal *)

Lemma lvalue_snoc (l : list DecimalFacts.digits) (d : DecimalFacts.digits) :
  lvalue (l ++ [d]) = (10 * lvalue l + digit_val d)%Z.
Proof. unfold lvalue. now rewrite fold_left_app. Qed.

Lemma lvalue_lnzhead (l r : list DecimalFacts.digits) :
  lvalue (DecimalFacts.lnzhead l ++ r) = lvalue (l ++ r).
Proof.
  induction l as [|d l IH]; [reflexivity|].
  destruct d; try reflexivity. simpl DecimalFacts.lnzhead. now rewrite IH.
Qed.

Lemma lvalue_zeros (l : list DecimalFacts.digits) (k : nat) :
  lvalue (l ++ repeat DecimalFacts.d0 k) = (lvalue l * Zpos (pow10 k))%Z.
Proof.
  induction k as [|k IH].
  - simpl. rewrite List.app_nil_r. lia.
  - cbn [repeat]. rewrite repeat_cons, List.app_assoc, lvalue_snoc, IH.
    cbn [pow10 digit_val]. rewrite Pos2Z.inj_mul. ring.
Qed.

Lemma nztail_zeros (u : Decimal.uint) :
  exists k, DecimalFacts.to_list u
            = (DecimalFacts.to_list (DecimalFacts.nztail u)
               ++ repeat DecimalFacts.d0 k)%list.
Proof.
  induction u as [|u [k IH]|u [k IH]|u [k IH]|u [k IH]|u [k IH]|u [k IH]
                  |u [k IH]|u [k IH]|u [k IH]|u [k IH]];
    [now exists 0%nat| |exists k; simpl; now rewrite <- IH..].
  simpl. destruct (DecimalFacts.nztail u) eqn:E;
    [exists (S k); simpl in *; now rewrite IH
    |exists k; rewrite IH; reflexivity..].
Qed.

Lemma pow10_add (a b : nat) : pow10 (a + b) = (pow10 a * pow10 b)%positive.
Proof.
  induction a as [|a IH]; simpl; [reflexivity|]. rewrite IH. lia.
Qed.

(** Canonical digits denote the same number. *)
Lemma to_Q_normal (x : num) : to_Q (normal x) == to_Q x.
Proof.
  destruct x as [sg ip fp]. unfold to_Q, normal. cbn [neg ipart fpart].
  rewrite DecimalFacts.nzhead_spec, lvalue_lnzhead.
  destruct (nztail_zeros fp) as [k Hk]. rewrite Hk.
  set (F := DecimalFacts.to_list (DecimalFacts.nztail fp)).
  rewrite List.app_assoc, lvalue_zeros, length_app, repeat_length, pow10_add.
  set (m := lvalue (DecimalFacts.to_list ip ++ F)).
  unfold Qeq. cbn [Qnum Qden]. rewrite Pos2Z.inj_mul.
  destruct sg; ring.
Qed.

Lemma to_Q_shift_left (x : num) : to_Q (shift_left x) * 10 == to_Q x.
Proof.
  destruct x as [sg ip fp]. unfold shift_left. cbn [neg ipart fpart].
  destruct (List.rev (DecimalFacts.to_list ip)) as [|d r] eqn:E.
  - assert (Hip : DecimalFacts.to_list ip = []).
    { rewrite <- (List.rev_involutive (DecimalFacts.to_list ip)), E.
      reflexivity. }
    unfold to_Q. cbn [neg ipart fpart DecimalFacts.to_list]. rewrite Hip.
    cbn [List.app List.length pow10].
    change (lvalue (DecimalFacts.d0 :: DecimalFacts.to_list fp))
      with (lvalue (DecimalFacts.to_list fp)).
    unfold Qeq, Qmult. cbn [Qnum Qden].
    rewrite !Pos2Z.inj_mul. destruct sg; ring.
  - assert (Hip : DecimalFacts.to_list ip = (List.rev r ++ [d])%list).
    { rewrite <- (List.rev_involutive (DecimalFacts.to_list ip)), E.
      reflexivity. }
    unfold to_Q. cbn [neg ipart fpart].
    rewrite !DecimalFacts.to_list_of_list, Hip, <- List.app_assoc.
    cbn [List.app List.length pow10].
    unfold Qeq, Qmult. cbn [Qnum Qden].
    rewrite !Pos2Z.inj_mul. destruct sg; ring.
Qed.

(** [div100] divides by one hundred. *)
Lemma to_Q_div100 (x : num) : to_Q (div100 x) * 100 == to_Q x.
Proof.
  unfold div100. rewrite to_Q_normal.
  rewrite <- (to_Q_shift_left x), <- (to_Q_shift_left (shift_left x)).
  rewrite <- Qmult_assoc. reflexivity.
Qed.

Lemma of_uint_acc_fold (u : Decimal.uint) (acc : positive) :
  Zpos (Pos.of_uint_acc u acc)
  = fold_left (fun a d => (10 * a + digit_val d)%Z)
      (DecimalFacts.to_list u) (Zpos acc).
Proof.
  revert acc. induction u; intro acc;
    cbn [Pos.of_uint_acc DecimalFacts.to_list fold_left digit_val];
    [reflexivity|..]; rewrite IHu; f_equal; lia.
Qed.

Lemma of_uint_lvalue (u : Decimal.uint) :
  Z.of_N (Pos.of_uint u) = lvalue (DecimalFacts.to_list u).
Proof.
  unfold lvalue.
  induction u;
    cbn [Pos.of_uint DecimalFacts.to_list fold_left digit_val Z.of_N];
    [reflexivity | exact IHu |..]; apply of_uint_acc_fold.
Qed.

(** [of_Z] denotes the integer it is given. *)
Lemma to_Q_of_Z (z : Z) : to_Q (of_Z z) == inject_Z z.
Proof.
  unfold of_Z. rewrite to_Q_normal. unfold to_Q. cbn [neg ipart fpart].
  cbn [DecimalFacts.to_list List.length pow10]. rewrite List.app_nil_r.
  rewrite <- of_uint_lvalue.
  destruct z as [|p|p]; cbn [Z.to_int Decimal.abs Z.ltb Z.compare].
  - reflexivity.
  - rewrite DecimalPos.Unsigned.of_to. reflexivity.
  - rewrite DecimalPos.Unsigned.of_to. reflexivity.
Qed.

End NumFacts.

(** ** Frames and the pipeline *)

Module AppFacts.
Import Frame App.
Local Open Scope string_scope.

Lemma isin_In (c : string) (l : list string) :
  Text.isin c l = true <-> In c l.
Proof.
  unfold Text.isin. rewrite existsb_exists. split.
  - intros [x [Hin Heq]]. apply String.eqb_eq in Heq. now subst.
  - intro Hin. exists c. split; [assumption | apply String.eqb_refl].
Qed.

Lemma isin_not_In (c : string) (l : list string) :
  Text.isin c l = false <-> ~ In c l.
Proof.
  rewrite <- isin_In. destruct (Text.isin c l); split; intros; congruence.
Qed.

Lemma where_map {A B : Type} (f h : A -> B) (g : A -> bool) (l : list A) :
  where_ (map f l) (map g l) (map h l)
  = map (fun x => if g x then f x else h x) l.
Proof.
  induction l as [|x l IH]; simpl; [reflexivity | now rewrite IH].
Qed.

(** *** Dropping the label columns *)

Lemma drop_column_absent (df : frame) (c : string) :
  has_column df c = false -> drop_column df c = df.
Proof.
  unfold has_column. rewrite isin_not_In. unfold columns, drop_column.
  induction df as [|x df IH]; simpl; intro H; [reflexivity|].
  destruct (String.eqb (col_name x) c) eqn:E.
  - apply String.eqb_eq in E. exfalso. apply H. now left.
  - simpl. f_equal. apply IH. intro Hin. apply H. now right.
Qed.

Lemma drop_if_present (df : frame) (c : string) :
  (if has_column df c then drop_column df c else df) = drop_column df c.
Proof.
  destruct (has_column df c) eqn:E; [reflexivity|].
  symmetry. now apply drop_column_absent.
Qed.

Lemma drop_labels_filter (df : frame) :
  drop_labels df = filter (fun col => not_label (col_name col)) df.
Proof.
  unfold drop_labels. simpl. rewrite !drop_if_present.
  unfold drop_column, not_label, Text.isin. simpl.
  induction df as [|x df IH]; simpl; [reflexivity|].
  destruct (String.eqb (col_name x) "default_flag"); simpl; [exact IH|].
  destruct (String.eqb (col_name x) "target"); simpl; [exact IH|].
  destruct (String.eqb (col_name x) "label"); simpl; [exact IH|].
  now rewrite IH.
Qed.

Lemma row_get_without_labels (r : record) (k : string) :
  not_label k = true -> row_get (without_labels r) k = row_get r k.
Proof.
  intro Hk. unfold without_labels.
  induction r as [|[k' v] r IH]; simpl; [reflexivity|].
  destruct (not_label k') eqn:Hk'; simpl.
  - now rewrite IH.
  - destruct (String.eqb k' k) eqn:E; [|exact IH].
    apply String.eqb_eq in E. subst k'. congruence.
Qed.

Lemma isin_filter (k : string) (f : string -> bool) (l : list string) :
  f k = true -> Text.isin k (filter f l) = Text.isin k l.
Proof.
  intro Hk. apply eq_true_iff_eq. rewrite !isin_In, filter_In. tauto.
Qed.

Lemma add_keys_without_labels (r : record) (seen : list string) :
  fold_left add_key (without_labels r) (filter not_label seen)
  = filter not_label (fold_left add_key r seen).
Proof.
  unfold without_labels.
  revert seen. induction r as [|[k v] r IH]; intro seen; simpl; [reflexivity|].
  destruct (not_label k) eqn:Hk; simpl; rewrite <- IH; f_equal;
    unfold add_key; simpl.
  - rewrite (isin_filter k not_label seen Hk).
    destruct (Text.isin k seen); [reflexivity|].
    rewrite filter_app. simpl. now rewrite Hk.
  - destruct (Text.isin k seen); [reflexivity|].
    rewrite filter_app. simpl. rewrite Hk. now rewrite List.app_nil_r.
Qed.

Lemma column_names_without_labels (rows : list record) :
  column_names (map without_labels rows) = filter not_label (column_names rows).
Proof.
  unfold column_names.
  change (@nil string) with (filter not_label []) at 1.
  generalize (@nil string) as seen.
  induction rows as [|r rows IH]; intro seen; simpl; [reflexivity|].
  rewrite add_keys_without_labels. apply IH.
Qed.

Lemma raw_cells_without_labels (rows : list record) (k : string) :
  not_label k = true -> raw_cells (map without_labels rows) k = raw_cells rows k.
Proof.
  intro Hk. unfold raw_cells. rewrite map_map. apply map_ext.
  intro r. now rewrite row_get_without_labels.
Qed.

Lemma infer_column_name (k : string) (cells : list value) :
  col_name (infer_column k cells) = k.
Proof.
  unfold infer_column.
  destruct (forallb is_bool cells); [reflexivity|].
  destruct (forallb is_int cells); [reflexivity|].
  now destruct (_ && _).
Qed.

Lemma filter_map_comm {A B : Type} (f : A -> B) (p : B -> bool) (q : A -> bool)
  (l : list A) :
  (forall x, p (f x) = q x) -> filter p (map f l) = map f (filter q l).
Proof.
  intro H. induction l as [|x l IH]; simpl; [reflexivity|].
  rewrite H. destruct (q x); simpl; now rewrite IH.
Qed.

(** Building the frame from rows without their labels is dropping the
    label columns from the frame of the rows. *)
Lemma DataFrame_without_labels (rows : list record) :
  DataFrame (map without_labels rows) = drop_labels (DataFrame rows).
Proof.
  rewrite drop_labels_filter. unfold DataFrame.
  rewrite column_names_without_labels.
  rewrite (filter_map_comm _ _ not_label)
    by (intro k; now rewrite infer_column_name).
  apply map_ext_in. intros k Hk. apply filter_In in Hk.
  now rewrite raw_cells_without_labels.
Qed.

Lemma placeholders_col_name (c : column) :
  col_name (placeholders_col c) = col_name c.
Proof. unfold placeholders_col. now destruct (col_dtype c). Qed.

Lemma numeric_like_col_name (c : column) :
  col_name (numeric_like_col c) = col_name c.
Proof. unfold numeric_like_col. now destruct (col_dtype c). Qed.

Lemma normalize_strings_columns (df : frame) :
  columns (normalize_strings df) = columns df.
Proof.
  unfold normalize_strings, columns. rewrite !map_map.
  apply map_ext. intro c.
  now rewrite numeric_like_col_name, placeholders_col_name.
Qed.

Lemma drop_labels_no_label (df : frame) (c : string) :
  In c label_columns -> has_column (drop_labels df) c = false.
Proof.
  intro Hc. unfold has_column. apply isin_not_In.
  rewrite drop_labels_filter. unfold columns. rewrite in_map_iff.
  intros [col [Hname Hin]]. apply filter_In in Hin. destruct Hin as [_ Hnl].
  unfold not_label in Hnl. rewrite Hname in Hnl.
  apply isin_In in Hc. rewrite Hc in Hnl. discriminate.
Qed.

Lemma drop_labels_get_column (df : frame) (c : string) :
  ~ In c label_columns -> get_column (drop_labels df) c = get_column df c.
Proof.
  intro Hc. apply isin_not_In in Hc. rewrite drop_labels_filter.
  induction df as [|x df IH]; simpl; [reflexivity|].
  destruct (not_label (col_name x)) eqn:Hx; simpl.
  - now rewrite IH.
  - destruct (String.eqb (col_name x) c) eqn:E; [|exact IH].
    apply String.eqb_eq in E. unfold not_label in Hx.
    rewrite E, Hc in Hx. discriminate.
Qed.

Lemma build_results_without_labels (rows : list record) (pd_vals : list Q) :
  build_results (map without_labels rows) pd_vals = build_results rows pd_vals.
Proof.
  revert pd_vals. induction rows as [|r rows IH]; intros [|p ps];
    simpl; try reflexivity.
  rewrite IH. now rewrite (row_get_without_labels r "user_id").
Qed.

(** *** [normalize_strings], column by column and cell by cell *)

Lemma placeholders_cells (cells : list value) :
  (let s := stripped cells in
   let isph := map (fun x => Text.isin (Text.lower x) Text.placeholders) s in
   where_ (map VStr s) (map negb isph) (map (fun _ => VNaN) s))
  = map placeholder_cell cells.
Proof.
  unfold stripped. induction cells as [|v cells IH]; cbn [map where_] in *;
    [reflexivity|].
  rewrite IH. unfold placeholder_cell.
  now destruct (Text.isin _ _).
Qed.

Lemma numeric_like_nums (cells : list value) :
  (let s := stripped cells in
   let s2 := map Text.remove_symbols s in
   let pct := map Text.endswith_pct s2 in
   let s2 := where_ s2 (map negb pct) (map Text.removesuffix_pct s2) in
   let nums := map Num.parse_float s2 in
   where_ nums (map negb pct) (map (option_map Num.div100) nums))
  = map parsed_num cells.
Proof.
  unfold stripped. induction cells as [|v cells IH]; cbn [map where_] in *;
    [reflexivity|].
  rewrite IH. f_equal. unfold parsed_num, candidate.
  destruct (Text.endswith_pct _); cbn [negb option_map];
    now destruct (Num.parse_float _).
Qed.

Lemma numeric_like_cells (cells : list value) :
  where_ (map num_cell (map parsed_num cells))
    (map notna_num (map parsed_num cells)) cells
  = map numeric_like_cell cells.
Proof.
  induction cells as [|v cells IH]; cbn [map where_]; [reflexivity|].
  rewrite IH. unfold numeric_like_cell. now destruct (parsed_num v).
Qed.

Lemma numeric_like_col_object (name : string) (cells : list value) :
  numeric_like_col (mk_col name DObject cells)
  = mk_col name
      (if forallb (fun w => notna_num (parsed_num w)) cells
       then DFloat else DObject)
      (map numeric_like_cell cells).
Proof.
  unfold numeric_like_col. cbn [col_dtype col_name col_cells]. cbv zeta.
  pose proof (numeric_like_nums cells) as H. cbv zeta in H.
  rewrite H, numeric_like_cells.
  assert (Hall : forallb notna_num (map parsed_num cells)
                 = forallb (fun w => notna_num (parsed_num w)) cells).
  { clear H. induction cells as [|v cells IH]; cbn [map forallb];
      [reflexivity | now rewrite IH]. }
  now rewrite Hall.
Qed.

Lemma placeholders_col_object (c : column) :
  col_dtype c = DObject ->
  placeholders_col c = mk_col (col_name c) DObject
                         (map placeholder_cell (col_cells c)).
Proof.
  intro H. unfold placeholders_col. rewrite H. cbv zeta.
  pose proof (placeholders_cells (col_cells c)) as Hc. cbv zeta in Hc.
  now rewrite Hc.
Qed.

Lemma normalize_col_other (c : column) :
  col_dtype c <> DObject -> numeric_like_col (placeholders_col c) = c.
Proof.
  intro H. unfold placeholders_col.
  destruct (col_dtype c) eqn:E; try congruence;
    unfold numeric_like_col; now rewrite E.
Qed.

Lemma placeholder_cell_cases (v : value) :
  (placeholder_cell v = VNaN /\
   Text.isin (Text.lower (Text.strip (py_str v))) Text.placeholders = true)
  \/ (placeholder_cell v = VStr (Text.strip (py_str v)) /\
      Text.isin (Text.lower (Text.strip (py_str v))) Text.placeholders = false).
Proof.
  unfold placeholder_cell. destruct (Text.isin _ _); [left | right]; now split.
Qed.

(** The two loops on one cell are the three rules of the
    specification. *)
Lemma numeric_like_placeholder (v : value) :
  numeric_like_cell (placeholder_cell v) = normalize_cell v.
Proof.
  unfold normalize_cell.
  destruct (placeholder_cell_cases v) as [[-> _]|[-> _]]; [reflexivity|].
  unfold numeric_like_cell, parsed_num. cbn [py_str].
  rewrite TextFacts.strip_idem.
  destruct (candidate _) as [cand pct].
  now destruct (Num.parse_float cand).
Qed.

Lemma parsed_placeholder (v : value) :
  notna_num (parsed_num (placeholder_cell v)) = parses v.
Proof.
  unfold parses, normalize_cell.
  destruct (placeholder_cell_cases v) as [[-> _]|[-> _]]; [reflexivity|].
  unfold parsed_num. cbn [py_str]. rewrite TextFacts.strip_idem.
  destruct (candidate _) as [cand pct].
  now destruct (Num.parse_float cand).
Qed.

(** [normalize_strings] on a column of dtype [object]. *)
Lemma normalize_col_object (c : column) :
  col_dtype c = DObject ->
  numeric_like_col (placeholders_col c)
  = mk_col (col_name c)
      (if forallb parses (col_cells c) then DFloat else DObject)
      (map normalize_cell (col_cells c)).
Proof.
  intro H. rewrite (placeholders_col_object c H), numeric_like_col_object.
  rewrite map_map. f_equal.
  - assert (Hall : forallb (fun w => notna_num (parsed_num w))
                     (map placeholder_cell (col_cells c))
                   = forallb parses (col_cells c)).
    { induction (col_cells c) as [|v l IH]; cbn [map forallb];
        [reflexivity | now rewrite IH, parsed_placeholder]. }
    now rewrite Hall.
  - apply map_ext. apply numeric_like_placeholder.
Qed.

Lemma normalize_cell_num (x : Num.num) :
  normalize_cell (VNum x) = VNum (Num.normal x).
Proof.
  unfold normalize_cell, placeholder_cell. cbn [py_str].
  pose proof (NumFacts.render_numeric x) as Hx.
  rewrite (NumFacts.numeric_strip _ Hx), (NumFacts.numeric_lower _ Hx).
  rewrite NumFacts.render_not_placeholder.
  unfold candidate.
  rewrite (NumFacts.numeric_remove_symbols _ Hx).
  rewrite (NumFacts.numeric_endswith_pct _ Hx).
  now rewrite NumFacts.parse_float_render.
Qed.

Lemma normalize_cell_cases (v : value) :
  normalize_cell v = VNaN
  \/ (exists x, normalize_cell v = VNum x /\ Num.normal x = x)
  \/ (normalize_cell v = placeholder_cell v /\
      placeholder_cell v = VStr (Text.strip (py_str v)) /\
      Text.isin (Text.lower (Text.strip (py_str v))) Text.placeholders = false /\
      Num.parse_float (fst (candidate (Text.strip (py_str v)))) = None).
Proof.
  unfold normalize_cell.
  destruct (placeholder_cell_cases v) as [[-> _]|[-> Hph]]; [now left|].
  destruct (candidate _) as [cand pct] eqn:Ec. cbn [fst].
  destruct (Num.parse_float cand) as [x|] eqn:Ep.
  - right; left. eexists. split; [reflexivity|].
    destruct pct; [apply NumFacts.div100_normal|].
    exact (NumFacts.parse_float_normal _ _ Ep).
  - right; right. now repeat split.
Qed.

(** A normalized cell is not changed by normalizing it again. *)
Lemma normalize_cell_idem (v : value) :
  normalize_cell (normalize_cell v) = normalize_cell v.
Proof.
  destruct (normalize_cell_cases v)
    as [->|[[x [-> Hx]]|[-> [-> [Hph Hp]]]]].
  - reflexivity.
  - now rewrite normalize_cell_num, Hx.
  - unfold normalize_cell, placeholder_cell. cbn [py_str].
    rewrite TextFacts.strip_idem, Hph.
    destruct (candidate _) as [cand pct]. cbn [fst] in Hp. now rewrite Hp.
Qed.

Lemma normalize_strings_map (df : frame) :
  normalize_strings df
  = map (fun c => numeric_like_col (placeholders_col c)) df.
Proof. unfold normalize_strings. apply map_map. Qed.

Lemma parses_normalize_cell (v : value) : parses (normalize_cell v) = parses v.
Proof. unfold parses. now rewrite normalize_cell_idem. Qed.

Lemma normalize_col_idem (c : column) :
  numeric_like_col (placeholders_col (numeric_like_col (placeholders_col c)))
  = numeric_like_col (placeholders_col c).
Proof.
  destruct (col_dtype c) eqn:E;
    [|assert (H : col_dtype c <> DObject) by congruence;
      rewrite (normalize_col_other c H); exact (normalize_col_other c H)..].
  - rewrite (normalize_col_object c E).
    destruct (forallb parses (col_cells c)) eqn:Hall.
    + now apply normalize_col_other.
    + rewrite normalize_col_object by reflexivity.
      cbn [col_name col_cells]. rewrite map_map. f_equal.
      * assert (H : forallb parses (map normalize_cell (col_cells c))
                    = forallb parses (col_cells c)).
        { clear. induction (col_cells c) as [|v l IH]; cbn [map forallb];
            [reflexivity | now rewrite IH, parses_normalize_cell]. }
        now rewrite H, Hall.
      * apply map_ext. apply normalize_cell_idem.
Qed.


Lemma normalize_strings_nth (df : frame) (j : nat) :
  nth_error (normalize_strings df) j
  = option_map (fun c => numeric_like_col (placeholders_col c)) (nth_error df j).
Proof. rewrite normalize_strings_map. apply nth_error_map. Qed.

Lemma unparsed_keeps_placeholder_cell (v : value) :
  Num.parse_float (fst (candidate (Text.strip (py_str v)))) = None ->
  normalize_cell v = placeholder_cell v.
Proof.
  intro Hp. unfold normalize_cell.
  destruct (placeholder_cell_cases v) as [[-> _]|[-> _]]; [reflexivity|].
  destruct (candidate _) as [cand pct]. cbn [fst] in Hp. now rewrite Hp.
Qed.



Section PipelineFacts.

Variable FEATURE_ORDER : list string.

Local Abbreviation CATEGORICAL := (CATEGORICAL_FEATURES FEATURE_ORDER).

(** No name is declared both numeric and categorical. *)
Lemma categorical_not_numeric (c : string) :
  Text.isin c NUMERIC_FEATURES = true -> Text.isin c CATEGORICAL = false.
Proof.
  intro Hn. apply isin_not_In. intro Hc.
  unfold CATEGORICAL_FEATURES in Hc.
  destruct FEATURE_ORDER as [|f fs].
  - assert (Hd : forallb (fun x => negb (Text.isin x NUMERIC_FEATURES))
                   ["location"; "employment_type"; "salary_band"] = true)
      by reflexivity.
    rewrite forallb_forall in Hd. specialize (Hd c Hc).
    rewrite Hn in Hd. discriminate.
  - apply filter_In in Hc. destruct Hc as [_ Hc].
    rewrite Hn in Hc. discriminate.
Qed.

Lemma cast_numeric_col_name (c : column) :
  col_name (cast_numeric_col c) = col_name c.
Proof. unfold cast_numeric_col. now destruct (Text.isin _ _). Qed.

Lemma cast_categorical_col_name (c : column) :
  col_name (cast_categorical_col FEATURE_ORDER c) = col_name c.
Proof. unfold cast_categorical_col. now destruct (Text.isin _ _). Qed.

Lemma cast_schema_columns (df : frame) :
  columns (cast_schema FEATURE_ORDER df) = columns df.
Proof.
  unfold cast_schema, columns. rewrite !map_map.
  apply map_ext. intro c.
  now rewrite cast_categorical_col_name, cast_numeric_col_name.
Qed.

(** What [cast_schema] does to a column declared numeric. *)
Lemma cast_schema_numeric_col (c : column) :
  Text.isin (col_name c) NUMERIC_FEATURES = true ->
  cast_categorical_col FEATURE_ORDER (cast_numeric_col c)
  = mk_col (col_name c) DFloat
      (map (fun v => VNum (match to_numeric v with
                           | Some x => x
                           | None => zero
                           end)) (col_cells c)).
Proof.
  intro Hn. unfold cast_numeric_col. rewrite Hn.
  unfold cast_categorical_col. simpl.
  rewrite (categorical_not_numeric _ Hn).
  f_equal. apply map_ext. intro v. now destruct (to_numeric v).
Qed.

(** What [cast_schema] does to a column declared categorical. *)
Lemma cast_schema_categorical_col (c : column) :
  Text.isin (col_name c) CATEGORICAL = true ->
  cast_categorical_col FEATURE_ORDER (cast_numeric_col c)
  = mk_col (col_name c) DObject
      (map (fun v => if isna v then VStr "unknown" else v) (col_cells c)).
Proof.
  intro Hc. unfold cast_numeric_col.
  destruct (Text.isin (col_name c) NUMERIC_FEATURES) eqn:Hn.
  - rewrite (categorical_not_numeric _ Hn) in Hc. discriminate.
  - unfold cast_categorical_col. now rewrite Hc.
Qed.

Lemma cast_schema_nth (df : frame) (j : nat) :
  nth_error (cast_schema FEATURE_ORDER df) j
  = option_map (fun c => cast_categorical_col FEATURE_ORDER (cast_numeric_col c))
      (nth_error df j).
Proof.
  unfold cast_schema. rewrite map_map. apply nth_error_map.
Qed.


Lemma filter_none {A : Type} (f : A -> bool) (l : list A) :
  (forall x, In x l -> f x = false) -> filter f l = [].
Proof.
  induction l as [|x l IH]; simpl; intro H; [reflexivity|].
  rewrite (H x (or_introl eq_refl)). apply IH. intros y Hy. apply H. now right.
Qed.

Lemma cast_schema_numeric_dtype (df : frame) (c : column) :
  In c (cast_schema FEATURE_ORDER df) ->
  Text.isin (col_name c) NUMERIC_FEATURES = true ->
  col_dtype c = DFloat.
Proof.
  unfold cast_schema. rewrite map_map, in_map_iff.
  intros [c0 [<- _]] Hn.
  rewrite cast_categorical_col_name, cast_numeric_col_name in Hn.
  now rewrite (cast_schema_numeric_col c0 Hn).
Qed.

(** The dtype check of [validate_dtypes] finds nothing after
    [cast_schema]. *)
Lemma validate_after_cast (df : frame) (e : error) :
  validate_dtypes FEATURE_ORDER (cast_schema FEATURE_ORDER df) = Some e ->
  exists missing, e = MissingColumns missing.
Proof.
  unfold validate_dtypes.
  destruct (match FEATURE_ORDER with
            | [] => []
            | _ :: _ => missing_columns FEATURE_ORDER (cast_schema FEATURE_ORDER df)
            end) as [|m ms].
  - rewrite filter_none; [discriminate|].
    intros c Hc.
    destruct (Text.isin (col_name c) NUMERIC_FEATURES) eqn:Hn; [|reflexivity].
    now rewrite (cast_schema_numeric_dtype df c Hc Hn).
  - intros [= <-]. eexists. reflexivity.
Qed.

Variable pd_vals_of : frame -> option (list Q).

(** C10.  After [cast_schema] every column declared numeric is
    [float64], so the dtype check of [validate_dtypes] passes: on a cast
    frame validation fails for missing columns only, and neither the
    preparation of the frame nor [predict] ever raises the
    "not numeric after casting" error. *)
Theorem type_mismatch_unreachable :
  (forall (df : frame) (c : column),
      In c (cast_schema FEATURE_ORDER df) ->
      Text.isin (col_name c) NUMERIC_FEATURES = true ->
      is_number_dtype (col_dtype c) = true) /\
  (forall (df : frame) (e : error),
      validate_dtypes FEATURE_ORDER (cast_schema FEATURE_ORDER df) = Some e ->
      exists missing, e = MissingColumns missing) /\
  (forall (rows : list record) (wrong : list (string * dtype)),
      prepare FEATURE_ORDER rows <> inl (NotNumeric wrong) /\
      predict FEATURE_ORDER pd_vals_of rows <> inl (NotNumeric wrong)).
Proof.
  split; [|split].
  - intros df c Hc Hn. now rewrite (cast_schema_numeric_dtype df c Hc Hn).
  - apply validate_after_cast.
  - intros rows wrong.
    assert (Hp : prepare FEATURE_ORDER rows <> inl (NotNumeric wrong)).
    { unfold prepare. destruct rows as [|r rows]; [discriminate|].
      set (df := normalize_strings (drop_labels (DataFrame (r :: rows)))).
      destruct (match FEATURE_ORDER with
                | [] => inr df
                | _ :: _ =>
                    match missing_columns FEATURE_ORDER df with
                    | [] => inr (select_columns FEATURE_ORDER df)
                    | (_ :: _) as missing =>
                        inl (MissingExpected missing FEATURE_ORDER)
                    end
                end) as [e|df'] eqn:Hsel.
      - destruct FEATURE_ORDER; [discriminate|].
        destruct (missing_columns _ df); [discriminate|].
        injection Hsel as <-. discriminate.
      - destruct (validate_dtypes _ _) as [e|] eqn:Hv; [|discriminate].
        apply validate_after_cast in Hv. destruct Hv as [m ->]. discriminate. }
    split; [exact Hp|].
    unfold predict. destruct (prepare FEATURE_ORDER rows) as [e|df] eqn:He.
    + intros [= ->]. now apply Hp.
    + destruct (pd_vals_of df); discriminate.
Qed.

Lemma get_column_name (df : frame) (c : string) (col : column) :
  get_column df c = Some col -> col_name col = c.
Proof.
  induction df as [|x df IH]; simpl; [discriminate|].
  destruct (String.eqb (col_name x) c) eqn:E.
  - intros [= <-]. now apply String.eqb_eq.
  - exact IH.
Qed.

Lemma has_column_get (df : frame) (c : string) :
  has_column df c = true -> exists col, get_column df c = Some col.
Proof.
  unfold has_column. rewrite isin_In. unfold columns.
  induction df as [|x df IH]; simpl; [contradiction|].
  intros [H|H].
  - exists x. subst c. now rewrite String.eqb_refl.
  - destruct (String.eqb (col_name x) c); [now exists x | now apply IH].
Qed.

Lemma missing_columns_In (df : frame) (c : string) :
  In c (missing_columns FEATURE_ORDER df)
  <-> In c FEATURE_ORDER /\ has_column df c = false.
Proof.
  unfold missing_columns. rewrite filter_In, negb_true_iff. reflexivity.
Qed.

Lemma missing_columns_nil (df : frame) :
  missing_columns FEATURE_ORDER df = [] <->
  forall c, In c FEATURE_ORDER -> has_column df c = true.
Proof.
  split.
  - intros H c Hc. destruct (has_column df c) eqn:E; [reflexivity|].
    assert (Hin : In c (missing_columns FEATURE_ORDER df))
      by (apply missing_columns_In; now split).
    rewrite H in Hin. contradiction.
  - intro H. apply filter_none. intros c Hc. now rewrite (H c Hc).
Qed.

(** [df[FEATURE_ORDER]] has exactly the columns [FEATURE_ORDER]. *)
Lemma select_columns_names (df : frame) :
  missing_columns FEATURE_ORDER df = [] ->
  columns (select_columns FEATURE_ORDER df) = FEATURE_ORDER.
Proof.
  rewrite missing_columns_nil. unfold select_columns, columns.
  induction FEATURE_ORDER as [|c l IH]; intro H; simpl; [reflexivity|].
  destruct (has_column_get df c (H c (or_introl eq_refl))) as [col Hcol].
  rewrite Hcol. simpl. rewrite (get_column_name _ _ _ Hcol).
  f_equal. apply IH. intros x Hx. apply H. now right.
Qed.

Lemma validate_after_select (df : frame) :
  missing_columns FEATURE_ORDER df = [] ->
  validate_dtypes FEATURE_ORDER
    (cast_schema FEATURE_ORDER (select_columns FEATURE_ORDER df)) = None.
Proof.
  intro Hm.
  set (df' := cast_schema FEATURE_ORDER (select_columns FEATURE_ORDER df)).
  assert (Hnil : missing_columns FEATURE_ORDER df' = []).
  { apply missing_columns_nil. intros c Hc. unfold has_column, df'.
    rewrite cast_schema_columns, (select_columns_names df Hm).
    now apply isin_In. }
  destruct (validate_dtypes FEATURE_ORDER df') as [e|] eqn:Hv;
    [exfalso|reflexivity].
  destruct (validate_after_cast _ _ Hv) as [m ->].
  unfold validate_dtypes in Hv.
  assert (Hinner : match FEATURE_ORDER with
                   | [] => []
                   | _ :: _ => missing_columns FEATURE_ORDER df'
                   end = []).
  { rewrite Hnil. now destruct FEATURE_ORDER. }
  rewrite Hinner in Hv.
  destruct (map _ (filter _ df')); discriminate.
Qed.

(** C8.  With a known, non-empty feature order and a non-empty batch,
    [predict] fails with a missing-columns error exactly when some
    required column is absent from the normalized frame, and the error
    then carries the absent names, in feature order, together with the
    whole expected feature order. *)
Theorem missing_columns_rejected :
  FEATURE_ORDER <> [] ->
  forall rows : list record, rows <> [] ->
    let df := normalize_strings (drop_labels (DataFrame rows)) in
    ((exists e, predict FEATURE_ORDER pd_vals_of rows = inl e
                /\ is_missing_error e = true)
     <-> (exists c, In c FEATURE_ORDER /\ has_column df c = false)) /\
    (forall e, predict FEATURE_ORDER pd_vals_of rows = inl e ->
               is_missing_error e = true ->
               e = MissingExpected (missing_columns FEATURE_ORDER df)
                     FEATURE_ORDER) /\
    (forall c, In c (missing_columns FEATURE_ORDER df)
               <-> In c FEATURE_ORDER /\ has_column df c = false).
Proof.
  intros Hfo rows Hrows df.
  assert (Hcases :
    (missing_columns FEATURE_ORDER df <> [] /\
     predict FEATURE_ORDER pd_vals_of rows
     = inl (MissingExpected (missing_columns FEATURE_ORDER df) FEATURE_ORDER))
    \/ (missing_columns FEATURE_ORDER df = [] /\
        forall e, predict FEATURE_ORDER pd_vals_of rows = inl e ->
                  is_missing_error e = false)).
  { unfold predict, prepare. destruct rows as [|r rows]; [congruence|].
    fold df. destruct FEATURE_ORDER as [|f fs] eqn:Efo; [congruence|].
    rewrite <- Efo in *.
    destruct (missing_columns FEATURE_ORDER df) as [|m ms] eqn:Hm.
    - right. split; [reflexivity|].
      rewrite (validate_after_select df Hm).
      destruct (pd_vals_of _); intros e [= <-]. reflexivity.
    - left. split; [discriminate | reflexivity]. }
  split; [|split].
  - split.
    + intros [e [He Hmiss]].
      destruct Hcases as [[Hne _]|[_ Hno]].
      * destruct (missing_columns FEATURE_ORDER df) as [|c cs] eqn:Hm;
          [congruence|].
        exists c. apply missing_columns_In. rewrite Hm. now left.
      * rewrite (Hno e He) in Hmiss. discriminate.
    + intros [c Hc]. apply missing_columns_In in Hc.
      destruct Hcases as [[_ Hp]|[Hnil _]].
      * eexists. split; [exact Hp | reflexivity].
      * rewrite Hnil in Hc. contradiction.
  - intros e He Hmiss.
    destruct Hcases as [[_ Hp]|[_ Hno]].
    + rewrite Hp in He. now injection He as <-.
    + rewrite (Hno e He) in Hmiss. discriminate.
  - apply missing_columns_In.
Qed.

Lemma build_results_spec (rows : list record) (pd_vals : list Q) :
  List.length pd_vals = List.length rows ->
  List.length (build_results rows pd_vals) = List.length rows /\
  map user_id (build_results rows pd_vals) = map identifier_of rows /\
  map pd (build_results rows pd_vals) = pd_vals.
Proof.
  revert pd_vals.
  induction rows as [|row rows IH]; intros [|p ps] Hlen;
    simpl in *; try discriminate; [now repeat split|].
  destruct (IH ps) as [H1 [H2 H3]]; [lia|].
  rewrite H1, H2, H3. repeat split.
  unfold identifier_of. now destruct (row_get row "user_id").
Qed.

Lemma predict_inversion (rows : list record) (results : list result) :
  predict FEATURE_ORDER pd_vals_of rows = inr results ->
  rows <> [] /\
  exists df pd_vals,
    prepare FEATURE_ORDER rows = inr df /\
    pd_vals_of df = Some pd_vals /\
    results = build_results rows pd_vals.
Proof.
  unfold predict.
  destruct (prepare FEATURE_ORDER rows) as [e|df] eqn:Hp; [discriminate|].
  destruct (pd_vals_of df) as [vals|] eqn:Hv; [|discriminate].
  intros [= <-]. split.
  - intros ->. discriminate.
  - now exists df, vals.
Qed.


Lemma select_columns_subset (df : frame) (c : string) :
  has_column (select_columns FEATURE_ORDER df) c = true ->
  has_column df c = true.
Proof.
  unfold has_column. rewrite !isin_In. unfold select_columns, columns.
  rewrite in_map_iff. intros [col [Hname Hin]].
  apply in_flat_map in Hin. destruct Hin as [k [_ Hk]].
  destruct (get_column df k) as [col'|] eqn:Hg; [|contradiction].
  destruct Hk as [<-|[]]. subst c. apply in_map.
  clear - Hg. induction df as [|x df IH]; simpl in *; [discriminate|].
  destruct (String.eqb (col_name x) k).
  - injection Hg as <-. now left.
  - right. now apply IH.
Qed.

Lemma prepare_without_labels (rows : list record) :
  prepare FEATURE_ORDER (map without_labels rows) = prepare FEATURE_ORDER rows.
Proof.
  destruct rows as [|r rows]; [reflexivity|].
  unfold prepare.
  change (without_labels r :: map without_labels rows)
    with (map without_labels (r :: rows)).
  rewrite DataFrame_without_labels.
  assert (Hidem : forall df, drop_labels (drop_labels df) = drop_labels df).
  { intro df. rewrite !drop_labels_filter.
    induction df as [|x df IH]; simpl; [reflexivity|].
    destruct (not_label (col_name x)) eqn:E; simpl; [|exact IH].
    now rewrite E, IH. }
  now rewrite Hidem.
Qed.

Lemma prepare_no_label (rows : list record) (df : frame) (c : string) :
  prepare FEATURE_ORDER rows = inr df ->
  In c label_columns -> has_column df c = false.
Proof.
  intros Hp Hc. unfold prepare in Hp.
  destruct rows as [|r rows]; [discriminate|].
  set (df0 := normalize_strings (drop_labels (DataFrame (r :: rows)))) in Hp.
  assert (H0 : has_column df0 c = false).
  { unfold has_column, df0. rewrite normalize_strings_columns.
    now apply drop_labels_no_label. }
  assert (Hcast : forall d, has_column d c = false ->
            has_column (cast_schema FEATURE_ORDER d) c = false).
  { intros d Hd. unfold has_column in *. now rewrite cast_schema_columns. }
  destruct FEATURE_ORDER as [|f fs] eqn:Efo.
  - destruct (validate_dtypes _ _); [discriminate|].
    injection Hp as <-. now apply Hcast.
  - rewrite <- Efo in *.
    destruct (missing_columns FEATURE_ORDER df0); [|discriminate].
    destruct (validate_dtypes _ _); [discriminate|].
    injection Hp as <-. apply Hcast.
    destruct (has_column (select_columns FEATURE_ORDER df0) c) eqn:E;
      [|reflexivity].
    apply select_columns_subset in E. congruence.
Qed.

(** C9.  The frame that reaches the model has no column named
    "default_flag", "target" or "label"; [predict] answers a batch
    exactly as it answers the batch with those entries erased from
    every row, so their presence brings no error; and the dropping
    step leaves every other column as it was. *)
Theorem label_columns_dropped :
  (forall (rows : list record) (df : frame) (c : string),
      prepare FEATURE_ORDER rows = inr df ->
      In c label_columns -> has_column df c = false) /\
  (forall rows : list record,
      predict FEATURE_ORDER pd_vals_of rows
      = predict FEATURE_ORDER pd_vals_of (map without_labels rows)) /\
  (forall (df : frame) (c : string),
      ~ In c label_columns ->
      get_column (drop_labels df) c = get_column df c) /\
  (forall (df : frame) (c : string),
      In c label_columns -> has_column (drop_labels df) c = false).
Proof.
  split; [|split; [|split]].
  - apply prepare_no_label.
  - intro rows. unfold predict. rewrite prepare_without_labels.
    destruct (prepare FEATURE_ORDER rows); [reflexivity|].
    destruct (pd_vals_of _); [|reflexivity].
    now rewrite build_results_without_labels.
  - apply drop_labels_get_column.
  - apply drop_labels_no_label.
Qed.

End PipelineFacts.

(** *** The normalizer on texts *)


(** *** Concrete inputs *)





(** The feature order ["age"; "location"] and a row with "age" only. *)
Lemma missing_columns_rejected_witness :
  predict ["age"; "location"] constant_model [[("age", VInt 30)]]
  = inl (MissingExpected ["location"] ["age"; "location"]).
Proof.
  assert (Hfo : ["age"; "location"] <> @nil string) by discriminate.
  assert (Hrows : [[("age", VInt 30)]] <> @nil record) by discriminate.
  destruct (missing_columns_rejected ["age"; "location"] constant_model Hfo
              [[("age", VInt 30)]] Hrows) as [[_ Hiff] [Hpayload _]].
  destruct Hiff as [e [He Hmiss]].
  - exists "location". split; [right; left; reflexivity | reflexivity].
  - rewrite He. f_equal. exact (Hpayload e He Hmiss).
Defined.

(** A row that carries "target": the column is gone, the answer is that
    of the row without it. *)
Lemma label_columns_dropped_witness :
  has_column (cast_schema [] (normalize_strings
                (drop_labels (DataFrame [example_row])))) "target" = false /\
  predict [] constant_model [example_row]
  = predict [] constant_model [without_labels example_row].
Proof.
  destruct (label_columns_dropped [] constant_model) as [Hno [Hsame _]].
  split.
  - apply (Hno [example_row]); [reflexivity | right; left; reflexivity].
  - exact (Hsame [example_row]).
Defined.

(** An empty frame against the feature order ["age"]: validation
    reports the missing column. *)
Lemma type_mismatch_unreachable_witness :
  validate_dtypes ["age"] (cast_schema ["age"] [])
  = Some (MissingColumns ["age"]) /\
  exists missing, MissingColumns ["age"] = MissingColumns missing.
Proof.
  split; [reflexivity|].
  destruct (type_mismatch_unreachable ["age"] constant_model) as [_ [Hv _]].
  exact (Hv [] (MissingColumns ["age"]) eq_refl).
Defined.

End AppFacts.

(** * Further facts on the code *)

(** ** [band] and [pd_to_score] together *)

Module RiskMore.
Import Risk RiskFacts More.
Local Open Scope Q_scope.

Lemma py_round_inject_Z (n : Z) : py_round (inject_Z n) = n.
Proof.
  apply (rounds_to_unique (inject_Z n)); [apply py_round_spec|].
  left. split; lra.
Qed.

Lemma py_round_le (x : Q) (n : Z) : x <= inject_Z n -> (py_round x <= n)%Z.
Proof.
  intro H. rewrite <- (py_round_inject_Z n). now apply py_round_mono.
Qed.

Lemma py_round_ge (x : Q) (n : Z) : inject_Z n <= x -> (n <= py_round x)%Z.
Proof.
  intro H. rewrite <- (py_round_inject_Z n) at 1. now apply py_round_mono.
Qed.

(** The part of [600 p] that decides the score, against a threshold. *)
Lemma scaled_lt (p c : Q) (n : Z) :
  c * 600 == inject_Z n -> p < c -> (py_round (p * 600) <= n)%Z.
Proof.
  intros Hc Hp. apply py_round_le. rewrite <- Hc.
  apply Qmult_le_compat_r; [now apply Qlt_le_weak | unfold Qle; simpl; lia].
Qed.

Lemma scaled_ge (p c : Q) (n : Z) :
  c * 600 == inject_Z n -> c <= p -> (n <= py_round (p * 600))%Z.
Proof.
  intros Hc Hp. apply py_round_ge. rewrite <- Hc.
  apply Qmult_le_compat_r; [assumption | unfold Qle; simpl; lia].
Qed.

(** X1.  The band and the credit score of one probability agree: a
    "Very Low" band goes with a score of 840 to 900, "Low" with 780 to
    840, "Medium" with 690 to 780, "High" with 600 to 690 and
    "Very High" with 300 to 600. *)
Theorem band_score_ranges : forall p : Q,
  (band p = "Very Low"%string -> (840 <= pd_to_score p <= 900)%Z) /\
  (band p = "Low"%string -> (780 <= pd_to_score p <= 840)%Z) /\
  (band p = "Medium"%string -> (690 <= pd_to_score p <= 780)%Z) /\
  (band p = "High"%string -> (600 <= pd_to_score p <= 690)%Z) /\
  (band p = "Very High"%string -> (300 <= pd_to_score p <= 600)%Z).
Proof.
  intro p. unfold band, pd_to_score.
  pose proof (scaled_lt p 0.10 60 ltac:(reflexivity)) as L1.
  pose proof (scaled_lt p 0.20 120 ltac:(reflexivity)) as L2.
  pose proof (scaled_lt p 0.35 210 ltac:(reflexivity)) as L3.
  pose proof (scaled_lt p 0.50 300 ltac:(reflexivity)) as L4.
  pose proof (scaled_ge p 0.10 60 ltac:(reflexivity)) as G1.
  pose proof (scaled_ge p 0.20 120 ltac:(reflexivity)) as G2.
  pose proof (scaled_ge p 0.35 210 ltac:(reflexivity)) as G3.
  pose proof (scaled_ge p 0.50 300 ltac:(reflexivity)) as G4.
  destruct (Qltb p 0.10) eqn:H1;
    [apply Qltb_lt in H1; specialize (L1 H1)
    |apply Qltb_ge in H1; specialize (G1 H1);
     destruct (Qltb p 0.20) eqn:H2;
     [apply Qltb_lt in H2; specialize (L2 H2)
     |apply Qltb_ge in H2; specialize (G2 H2);
      destruct (Qltb p 0.35) eqn:H3;
      [apply Qltb_lt in H3; specialize (L3 H3)
      |apply Qltb_ge in H3; specialize (G3 H3);
       destruct (Qltb p 0.50) eqn:H4;
       [apply Qltb_lt in H4; specialize (L4 H4)
       |apply Qltb_ge in H4; specialize (G4 H4)]]]];
    repeat split; intros; try discriminate; lia.
Qed.

(** A probability of 0.42 is "High" and scores 648. *)
Lemma band_score_ranges_witness :
  band 0.42 = "High"%string /\ (600 <= pd_to_score 0.42 <= 690)%Z.
Proof.
  split; [reflexivity|].
  exact (proj1 (proj2 (proj2 (proj2 (band_score_ranges 0.42)))) eq_refl).
Defined.

Ltac band_cases :=
  repeat match goal with
         | H : Qltb _ _ = true |- _ => apply Qltb_lt in H
         | H : Qltb _ _ = false |- _ => apply Qltb_ge in H
         end.

(** X2.  [band] answers one of its five labels, and a larger
    probability never gets a less risky label. *)
Theorem band_monotone : forall p q : Q,
  In (band p)
    ["Very Low"; "Low"; "Medium"; "High"; "Very High"]%string /\
  (p <= q -> (band_rank (band p) <= band_rank (band q))%nat).
Proof.
  intros p q. split.
  - unfold band.
    destruct (Qltb p 0.10); [simpl; tauto|].
    destruct (Qltb p 0.20); [simpl; tauto|].
    destruct (Qltb p 0.35); [simpl; tauto|].
    destruct (Qltb p 0.50); simpl; tauto.
  - intro Hpq. unfold band.
    destruct (Qltb p 0.10) eqn:P1; destruct (Qltb p 0.20) eqn:P2;
      destruct (Qltb p 0.35) eqn:P3; destruct (Qltb p 0.50) eqn:P4;
      destruct (Qltb q 0.10) eqn:Q1; destruct (Qltb q 0.20) eqn:Q2;
      destruct (Qltb q 0.35) eqn:Q3; destruct (Qltb q 0.50) eqn:Q4;
      cbv [band_rank String.eqb Ascii.eqb Bool.eqb];
      try lia; exfalso; band_cases; lra.
Qed.

(** 0.15 is "Low", 0.42 is "High". *)
Lemma band_monotone_witness :
  (band_rank (band 0.15) <= band_rank (band 0.42))%nat.
Proof.
  apply (proj2 (band_monotone 0.15 0.42)). unfold Qle; simpl; lia.
Defined.

Lemma rounds_to_near (x : Q) (n : Z) :
  rounds_to x n -> inject_Z n - (1#2) <= x /\ x <= inject_Z n + (1#2).
Proof.
  intros [[? ?]|[[? _]|[? _]]]; split; lra.
Qed.



End RiskMore.

(** ** The frame handed to the model, and the errors of [predict] *)

Module PipelineMore.
Import Frame App AppFacts More.
Local Open Scope string_scope.

Lemma infer_column_length (k : string) (cells : list value) :
  List.length (col_cells (infer_column k cells)) = List.length cells.
Proof.
  unfold infer_column.
  destruct (forallb is_bool cells); [reflexivity|].
  destruct (forallb is_int cells); [reflexivity|].
  destruct (_ && _); [apply length_map | reflexivity].
Qed.

Lemma DataFrame_columns (rows : list record) :
  columns (DataFrame rows) = column_names rows.
Proof.
  unfold columns, DataFrame. rewrite map_map.
  rewrite (map_ext _ (fun k => k)) by (intro k; apply infer_column_name).
  apply map_id.
Qed.

Lemma DataFrame_has_rows (rows : list record) :
  has_rows (List.length rows) (DataFrame rows).
Proof.
  intros c Hc. unfold DataFrame in Hc. apply in_map_iff in Hc.
  destruct Hc as [k [<- _]]. rewrite infer_column_length.
  unfold raw_cells. apply length_map.
Qed.

Lemma drop_labels_incl (df : frame) (c : column) :
  In c (drop_labels df) -> In c df.
Proof.
  rewrite drop_labels_filter, filter_In. tauto.
Qed.

Lemma normalize_col_length (c : column) :
  List.length (col_cells (numeric_like_col (placeholders_col c)))
  = List.length (col_cells c).
Proof.
  destruct (col_dtype c) eqn:E.
  - rewrite (normalize_col_object c E). apply length_map.
  - now rewrite normalize_col_other by congruence.
  - now rewrite normalize_col_other by congruence.
  - now rewrite normalize_col_other by congruence.
Qed.

Lemma normalize_strings_has_rows (n : nat) (df : frame) :
  has_rows n df -> has_rows n (normalize_strings df).
Proof.
  intros H c Hc. rewrite normalize_strings_map in Hc.
  apply in_map_iff in Hc. destruct Hc as [c0 [<- Hc0]].
  rewrite normalize_col_length. now apply H.
Qed.

(** *** Rows reduced to some of their keys *)

Section Restrict.

Variable keep : string -> bool.

Local Abbreviation kept_col := (fun c : column => keep (col_name c)).

Lemma row_get_restrict (r : record) (k : string) :
  keep k = true -> row_get (restrict_keys keep r) k = row_get r k.
Proof.
  intro Hk. unfold restrict_keys.
  induction r as [|[k' v] r IH]; simpl; [reflexivity|].
  destruct (keep k') eqn:Hk'; simpl.
  - now rewrite IH.
  - destruct (String.eqb k' k) eqn:E; [|exact IH].
    apply String.eqb_eq in E. subst k'. congruence.
Qed.

Lemma add_keys_restrict (r : record) (seen : list string) :
  fold_left add_key (restrict_keys keep r) (filter keep seen)
  = filter keep (fold_left add_key r seen).
Proof.
  unfold restrict_keys.
  revert seen. induction r as [|[k v] r IH]; intro seen; simpl; [reflexivity|].
  destruct (keep k) eqn:Hk; simpl; rewrite <- IH; f_equal;
    unfold add_key; simpl.
  - rewrite (isin_filter k keep seen Hk).
    destruct (Text.isin k seen); [reflexivity|].
    rewrite filter_app. simpl. now rewrite Hk.
  - destruct (Text.isin k seen); [reflexivity|].
    rewrite filter_app. simpl. rewrite Hk. now rewrite List.app_nil_r.
Qed.

Lemma column_names_restrict (rows : list record) :
  column_names (map (restrict_keys keep) rows)
  = filter keep (column_names rows).
Proof.
  unfold column_names.
  change (@nil string) with (filter keep []) at 1.
  generalize (@nil string) as seen.
  induction rows as [|r rows IH]; intro seen; simpl; [reflexivity|].
  rewrite add_keys_restrict. apply IH.
Qed.

Lemma DataFrame_restrict (rows : list record) :
  DataFrame (map (restrict_keys keep) rows)
  = filter kept_col (DataFrame rows).
Proof.
  unfold DataFrame. rewrite column_names_restrict.
  rewrite (filter_map_comm _ kept_col keep)
    by (intro k; now rewrite infer_column_name).
  apply map_ext_in. intros k Hk. apply filter_In in Hk.
  f_equal. unfold raw_cells. rewrite map_map. apply map_ext.
  intro r. now rewrite row_get_restrict.
Qed.

Lemma filter_comm {A : Type} (f g : A -> bool) (l : list A) :
  filter f (filter g l) = filter g (filter f l).
Proof.
  induction l as [|x l IH]; simpl; [reflexivity|].
  destruct (f x) eqn:Ef, (g x) eqn:Eg; simpl;
    rewrite ?Ef, ?Eg, IH; reflexivity.
Qed.

Lemma drop_labels_restrict (df : frame) :
  drop_labels (filter kept_col df) = filter kept_col (drop_labels df).
Proof. rewrite !drop_labels_filter. apply filter_comm. Qed.

Lemma normalize_strings_restrict (df : frame) :
  normalize_strings (filter kept_col df)
  = filter kept_col (normalize_strings df).
Proof.
  rewrite !normalize_strings_map. symmetry.
  apply filter_map_comm. intro c.
  now rewrite numeric_like_col_name, placeholders_col_name.
Qed.

Lemma has_column_restrict (df : frame) (c : string) :
  keep c = true -> has_column (filter kept_col df) c = has_column df c.
Proof.
  intro Hc. unfold has_column. apply eq_true_iff_eq.
  rewrite !isin_In. unfold columns. rewrite !in_map_iff.
  split; intros [col [Hn Hin]]; exists col; (split; [exact Hn|]).
  - apply filter_In in Hin. tauto.
  - apply filter_In. split; [exact Hin|]. now rewrite Hn.
Qed.

Lemma get_column_restrict (df : frame) (c : string) :
  keep c = true -> get_column (filter kept_col df) c = get_column df c.
Proof.
  intro Hc. induction df as [|x df IH]; simpl; [reflexivity|].
  destruct (keep (col_name x)) eqn:Hx; simpl.
  - now rewrite IH.
  - destruct (String.eqb (col_name x) c) eqn:E; [|exact IH].
    apply String.eqb_eq in E. rewrite E in Hx. congruence.
Qed.

Lemma build_results_restrict (rows : list record) (pd_vals : list Q) :
  keep "user_id" = true ->
  build_results (map (restrict_keys keep) rows) pd_vals
  = build_results rows pd_vals.
Proof.
  intro Hk. revert pd_vals.
  induction rows as [|r rows IH]; intros [|p ps]; simpl; try reflexivity.
  rewrite IH. now rewrite (row_get_restrict r "user_id" Hk).
Qed.

End Restrict.

(** *** What [normalize_strings] does in a textual column *)

(** The decimal text of an integer. *)
Lemma parse_float_digits (sg : bool) (u : Decimal.uint) :
  Num.parse_float ((if sg then "-" else "") ++ NilZero.string_of_uint u)
  = Some (Num.normal (Num.mk_num sg u Decimal.Nil)).
Proof.
  unfold Num.parse_float.
  set (D := NilZero.string_of_uint u).
  assert (HD : Num.span_digits D
               = (match u with Decimal.Nil => Decimal.D0 Decimal.Nil | _ => u end,
                  "")).
  { unfold D. rewrite <- (NumFacts.append_empty (NilZero.string_of_uint u)).
    now apply NumFacts.span_digits_uint_zero. }
  assert (Hfinal :
    (let '(ip0, s2) := Num.span_digits D in
     let '(fp0, s3) :=
       match s2 with
       | String "."%char r => Num.span_digits r
       | _ => (Decimal.Nil, s2)
       end in
     match ip0, fp0 with
     | Decimal.Nil, Decimal.Nil => None
     | _, _ =>
         let '(e, s4) := Num.read_exponent s3 in
         match Num.skip_spaces s4 with
         | "" => Some (Num.normal (Num.scale10 e (Num.mk_num sg ip0 fp0)))
         | _ => None
         end
     end) = Some (Num.normal (Num.mk_num sg u Decimal.Nil))).
  { rewrite HD. unfold Num.normal. simpl. now destruct u. }
  destruct sg; simpl.
  - exact Hfinal.
  - unfold D in *. destruct u; simpl in *; exact Hfinal.
Qed.

Lemma digits_not_placeholder (sg : bool) (u : Decimal.uint) :
  Text.isin ((if sg then "-" else "") ++ NilZero.string_of_uint u)
    Text.placeholders = false.
Proof. destruct sg, u; reflexivity. Qed.

Lemma normalize_cell_int (z : Z) :
  normalize_cell (VInt z) = VNum (Num.of_Z z).
Proof.
  assert (Ht : py_str (VInt z)
               = (if (z <? 0)%Z then "-" else "")
                   ++ NilZero.string_of_uint (Decimal.abs (Z.to_int z)))
    by (destruct z; reflexivity).
  unfold normalize_cell, placeholder_cell. rewrite Ht.
  set (sg := (z <? 0)%Z). set (u := Decimal.abs (Z.to_int z)).
  assert (Hnum : Num.all_chars Num.numeric_char
                   ((if sg then "-" else "") ++ NilZero.string_of_uint u)
                 = true).
  { rewrite NumFacts.all_chars_app, NumFacts.string_of_uint_zero_numeric.
    now destruct sg. }
  rewrite (NumFacts.numeric_strip _ Hnum), (NumFacts.numeric_lower _ Hnum).
  rewrite digits_not_placeholder. unfold candidate.
  rewrite (NumFacts.numeric_remove_symbols _ Hnum).
  rewrite (NumFacts.numeric_endswith_pct _ Hnum).
  now rewrite parse_float_digits.
Qed.



(** *** A text that parses holds no symbol *)

Lemma literal_char_props (c : ascii) :
  literal_char c = true ->
  Ascii.eqb c "$"%char = false /\ Ascii.eqb c ","%char = false /\
  Ascii.eqb c "226"%char = false /\ Ascii.eqb c "%"%char = false.
Proof.
  destruct c as [[] [] [] [] [] [] [] []]; intro H;
    try discriminate H; repeat split; reflexivity.
Qed.

Lemma digit_is_literal (c : ascii) (d : Decimal.uint -> Decimal.uint) :
  Num.digit_of_char c = Some d -> literal_char c = true.
Proof. intro H. unfold literal_char. now rewrite H. Qed.

Lemma cspace_is_literal (c : ascii) :
  Num.is_cspace c = true -> literal_char c = true.
Proof.
  intro H. unfold literal_char. rewrite H.
  now destruct (Num.digit_of_char c).
Qed.

Lemma skip_spaces_literal (s : string) :
  Num.all_chars literal_char (Num.skip_spaces s) = true ->
  Num.all_chars literal_char s = true.
Proof.
  induction s as [|c r IH]; simpl; [trivial|].
  destruct (Num.is_cspace c) eqn:E; [|trivial].
  intro H. now rewrite (cspace_is_literal c E), IH.
Qed.

Lemma skip_spaces_all (s : string) :
  Num.skip_spaces s = "" -> Num.all_chars literal_char s = true.
Proof.
  induction s as [|c r IH]; simpl; [reflexivity|].
  destruct (Num.is_cspace c) eqn:E; [|discriminate].
  intro H. now rewrite (cspace_is_literal c E), IH.
Qed.

Lemma span_digits_literal (s : string) :
  Num.all_chars literal_char (snd (Num.span_digits s)) = true ->
  Num.all_chars literal_char s = true.
Proof.
  induction s as [|c r IH]; simpl; [trivial|].
  destruct (Num.digit_of_char c) as [d|] eqn:E; [|trivial].
  destruct (Num.span_digits r) as [u t]. simpl in *.
  intro H. now rewrite (digit_is_literal c d E), IH.
Qed.

Lemma read_exponent_literal (s : string) :
  Num.all_chars literal_char (snd (Num.read_exponent s)) = true ->
  Num.all_chars literal_char s = true.
Proof.
  destruct s as [|c r]; [trivial|]. unfold Num.read_exponent.
  destruct (Ascii.eqb c "e"%char || Ascii.eqb c "E"%char) eqn:Ec; [|trivial].
  assert (Hc : literal_char c = true).
  { apply orb_true_iff in Ec. destruct Ec as [E|E];
      apply Ascii.eqb_eq in E; subst c; reflexivity. }
  set (sign := match r with
               | String "-"%char r' => (true, r')
               | String "+"%char r' => (false, r')
               | _ => (false, r)
               end).
  assert (Hsign : Num.all_chars literal_char (snd sign) = true ->
                  Num.all_chars literal_char r = true).
  { unfold sign. destruct r as [|a r']; [trivial|].
    destruct (Ascii.eqb a "-"%char) eqn:Em.
    - apply Ascii.eqb_eq in Em. subst a. cbn. trivial.
    - destruct (Ascii.eqb a "+"%char) eqn:Ep.
      + apply Ascii.eqb_eq in Ep. subst a. cbn. trivial.
      + apply Ascii.eqb_neq in Em. apply Ascii.eqb_neq in Ep.
        destruct a as [[] [] [] [] [] [] [] []]; try congruence; trivial. }
  destruct sign as [esg r1].
  pose proof (span_digits_literal r1) as Hspan.
  destruct (Num.span_digits r1) as [ed r2]. cbn [snd] in *.
  destruct ed; cbn [snd]; trivial;
    intro H; cbn [Num.all_chars]; rewrite Hc; cbn [andb]; auto.
Qed.

(** A text that [parse_float] reads is made of literal characters. *)
Lemma parse_float_literal (s : string) (x : Num.num) :
  Num.parse_float s = Some x -> Num.all_chars literal_char s = true.
Proof.
  unfold Num.parse_float. intro H. apply skip_spaces_literal.
  set (s0 := Num.skip_spaces s) in *.
  set (sign := match s0 with
               | String "-"%char r => (true, r)
               | String "+"%char r => (false, r)
               | _ => (false, s0)
               end) in *.
  assert (Hsign : Num.all_chars literal_char (snd sign) = true ->
                  Num.all_chars literal_char s0 = true).
  { unfold sign. destruct s0 as [|a r']; [trivial|].
    destruct (Ascii.eqb a "-"%char) eqn:Em.
    - apply Ascii.eqb_eq in Em. subst a. cbn. trivial.
    - destruct (Ascii.eqb a "+"%char) eqn:Ep.
      + apply Ascii.eqb_eq in Ep. subst a. cbn. trivial.
      + apply Ascii.eqb_neq in Em. apply Ascii.eqb_neq in Ep.
        destruct a as [[] [] [] [] [] [] [] []]; try congruence; trivial. }
  destruct sign as [sg s1]. cbn [snd] in Hsign. apply Hsign.
  pose proof (span_digits_literal s1) as H1.
  destruct (Num.span_digits s1) as [ip s2]. cbn [snd] in H1. apply H1.
  set (frac := match s2 with
               | String "."%char r => Num.span_digits r
               | _ => (Decimal.Nil, s2)
               end) in *.
  assert (Hfrac : Num.all_chars literal_char (snd frac) = true ->
                  Num.all_chars literal_char s2 = true).
  { unfold frac. destruct s2 as [|a r']; [trivial|].
    destruct (Ascii.eqb a "."%char) eqn:Ed.
    - apply Ascii.eqb_eq in Ed. subst a. cbn [Num.all_chars].
      intro Hr. now rewrite (span_digits_literal r' Hr).
    - apply Ascii.eqb_neq in Ed.
      destruct a as [[] [] [] [] [] [] [] []]; try congruence; trivial. }
  destruct frac as [fp s3]. cbn [snd] in Hfrac. apply Hfrac.
  pose proof (read_exponent_literal s3) as H3.
  destruct (Num.read_exponent s3) as [e s4]. cbn [snd] in H3. apply H3.
  apply skip_spaces_all.
  destruct ip, fp; try discriminate H;
    destruct (Num.skip_spaces s4); try discriminate H; reflexivity.
Qed.

Lemma literal_remove_symbols (s : string) :
  Num.all_chars literal_char s = true -> Text.remove_symbols s = s.
Proof.
  induction s as [|c r IH]; simpl; [reflexivity|].
  intro Hs. apply andb_true_iff in Hs. destruct Hs as [Hc Hr].
  rewrite (IH Hr). apply literal_char_props in Hc.
  destruct Hc as [-> [-> [-> _]]]. simpl.
  destruct r as [|c1 [|c2 r']]; reflexivity.
Qed.

Lemma literal_endswith_pct (s : string) :
  Num.all_chars literal_char s = true -> Text.endswith_pct s = false.
Proof.
  induction s as [|c r IH]; simpl; [reflexivity|].
  intro Hs. apply andb_true_iff in Hs. destruct Hs as [Hc Hr].
  apply literal_char_props in Hc. destruct Hc as [_ [_ [_ Hp]]].
  destruct r; [exact Hp | now apply IH].
Qed.

(** A text in which [normalize_strings] finds no number has none for
    [pd.to_numeric] either. *)
Lemma unparsed_candidate_unparsed (t : string) :
  Num.parse_float (fst (candidate t)) = None -> Num.parse_float t = None.
Proof.
  intro H. destruct (Num.parse_float t) as [x|] eqn:E; [|reflexivity].
  pose proof (parse_float_literal t x E) as Hl.
  unfold candidate in H.
  rewrite (literal_remove_symbols t Hl), (literal_endswith_pct t Hl) in H.
  cbn [fst] in H. congruence.
Qed.

Lemma to_numeric_normalize_cell (v : value) :
  to_numeric (normalize_cell v)
  = match normalize_cell v with
    | VNum x => Some x
    | _ => None
    end.
Proof.
  destruct (normalize_cell_cases v)
    as [->|[[x [-> _]]|[-> [-> [_ Hp]]]]]; try reflexivity.
  cbn [to_numeric]. now apply unparsed_candidate_unparsed.
Qed.

(** *** Looking a column up along the pipeline *)

Lemma get_column_map (F : column -> column) (df : frame) (k : string) :
  (forall c, col_name (F c) = col_name c) ->
  get_column (map F df) k = option_map F (get_column df k).
Proof.
  intro HF. induction df as [|x df IH]; simpl; [reflexivity|].
  rewrite HF. now destruct (String.eqb (col_name x) k).
Qed.

Lemma get_column_filter (p : string -> bool) (df : frame) (k : string) :
  get_column (filter (fun c => p (col_name c)) df) k
  = if p k then get_column df k else None.
Proof.
  induction df as [|x df IH]; simpl; [now destruct (p k)|].
  destruct (p (col_name x)) eqn:Hx; simpl;
    destruct (String.eqb (col_name x) k) eqn:E; try exact IH.
  - apply String.eqb_eq in E. now rewrite <- E, Hx.
  - apply String.eqb_eq in E. rewrite IH, <- E, Hx. reflexivity.
Qed.

Lemma get_column_DataFrame (rows : list record) (k : string) :
  get_column (DataFrame rows) k
  = if Text.isin k (column_names rows)
    then Some (infer_column k (raw_cells rows k))
    else None.
Proof.
  unfold DataFrame, Text.isin.
  induction (column_names rows) as [|k' l IH]; [reflexivity|].
  cbn [map get_column existsb]. rewrite infer_column_name.
  rewrite (String.eqb_sym k k').
  destruct (String.eqb k' k) eqn:E; [|exact IH].
  apply String.eqb_eq in E. now subst k'.
Qed.

Lemma get_column_normalized (rows : list record) (k : string) (c : column) :
  get_column (normalize_strings (drop_labels (DataFrame rows))) k = Some c ->
  c = numeric_like_col (placeholders_col (infer_column k (raw_cells rows k))).
Proof.
  rewrite normalize_strings_map.
  rewrite get_column_map
    by (intro x; now rewrite numeric_like_col_name, placeholders_col_name).
  rewrite drop_labels_filter, get_column_filter, get_column_DataFrame.
  destruct (not_label k); [|discriminate].
  destruct (Text.isin k (column_names rows)); [|discriminate].
  now intros [= <-].
Qed.

Lemma raw_cells_nth (rows : list record) (k : string) (i : nat) (r : record) :
  nth_error rows i = Some r ->
  nth_error (raw_cells rows k) i = Some (raw_value r k).
Proof.
  intro H. unfold raw_cells. now rewrite nth_error_map, H.
Qed.

Section PipelineMoreFacts.

Variable FEATURE_ORDER : list string.
Variable pd_vals_of : frame -> option (list Q).

Lemma select_columns_incl (df : frame) (c : column) :
  In c (select_columns FEATURE_ORDER df) -> In c df.
Proof.
  unfold select_columns. rewrite in_flat_map.
  intros [k [_ Hk]].
  destruct (get_column df k) as [col|] eqn:Hg; [|contradiction].
  destruct Hk as [<-|[]].
  clear - Hg. induction df as [|x df IH]; simpl in *; [discriminate|].
  destruct (String.eqb (col_name x) k).
  - injection Hg as <-. now left.
  - right. now apply IH.
Qed.

Lemma cast_col_length (c : column) :
  List.length
    (col_cells (cast_categorical_col FEATURE_ORDER (cast_numeric_col c)))
  = List.length (col_cells c).
Proof.
  unfold cast_numeric_col, cast_categorical_col.
  destruct (Text.isin (col_name c) NUMERIC_FEATURES); cbn [col_name col_cells];
    destruct (Text.isin (col_name c) (CATEGORICAL_FEATURES FEATURE_ORDER));
    cbn [col_cells]; rewrite ?length_map; reflexivity.
Qed.

Lemma cast_schema_in (df : frame) (c : column) :
  In c (cast_schema FEATURE_ORDER df) ->
  exists c0, In c0 df /\
    c = cast_categorical_col FEATURE_ORDER (cast_numeric_col c0).
Proof.
  unfold cast_schema. rewrite map_map, in_map_iff.
  intros [c0 [<- H]]. now exists c0.
Qed.

(** The frame of the first three steps of [predict]. *)
Local Abbreviation normalized rows :=
  (normalize_strings (drop_labels (DataFrame rows))).

(** What a successful preparation went through. *)
Lemma prepare_ok_inv (rows : list record) (df : frame) :
  prepare FEATURE_ORDER rows = inr df ->
  rows <> [] /\
  ((FEATURE_ORDER = [] /\ df = cast_schema FEATURE_ORDER (normalized rows))
   \/ (FEATURE_ORDER <> [] /\
       missing_columns FEATURE_ORDER (normalized rows) = [] /\
       df = cast_schema FEATURE_ORDER
              (select_columns FEATURE_ORDER (normalized rows)))).
Proof.
  unfold prepare. destruct rows as [|r rows]; [discriminate|].
  intro H. split; [discriminate|].
  destruct FEATURE_ORDER as [|f fs] eqn:Efo.
  - left. split; [reflexivity|].
    destruct (validate_dtypes _ _); [discriminate | now injection H as <-].
  - right. rewrite <- Efo in *. split; [congruence|].
    destruct (missing_columns FEATURE_ORDER _); [|discriminate].
    split; [reflexivity|].
    destruct (validate_dtypes _ _); [discriminate | now injection H as <-].
Qed.

Lemma validate_unknown_order (df : frame) :
  FEATURE_ORDER = [] ->
  validate_dtypes FEATURE_ORDER (cast_schema FEATURE_ORDER df) = None.
Proof.
  intro Efo.
  destruct (validate_dtypes _ _) as [e|] eqn:Hv; [exfalso|reflexivity].
  destruct (validate_after_cast _ _ _ Hv) as [m ->].
  unfold validate_dtypes in Hv. rewrite Efo in Hv at 1.
  destruct (map _ (filter _ _)); discriminate.
Qed.

(** X4.  The frame handed to the model has exactly the columns of
    [FEATURE_ORDER], in that order, when the feature order is known;
    when it is not, it has the keys of the rows in order of first
    appearance, the label columns left out. *)
Theorem prepared_columns :
  forall (rows : list record) (df : frame),
    prepare FEATURE_ORDER rows = inr df ->
    (FEATURE_ORDER <> [] -> columns df = FEATURE_ORDER) /\
    (FEATURE_ORDER = [] ->
       columns df = filter not_label (column_names rows)).
Proof.
  intros rows df Hp.
  destruct (prepare_ok_inv rows df Hp) as [_ [[Efo ->]|[Hfo [Hm ->]]]].
  - split; [congruence|]. intros _.
    rewrite cast_schema_columns, normalize_strings_columns.
    rewrite <- DataFrame_without_labels, DataFrame_columns.
    apply column_names_without_labels.
  - split; [|congruence]. intros _.
    rewrite cast_schema_columns. now apply select_columns_names.
Qed.

(** X5.  The frame handed to the model has one cell per input row in
    every column. *)
Theorem prepared_row_count :
  forall (rows : list record) (df : frame),
    prepare FEATURE_ORDER rows = inr df ->
    has_rows (List.length rows) df.
Proof.
  intros rows df Hp.
  assert (H0 : has_rows (List.length rows) (normalized rows)).
  { apply normalize_strings_has_rows. intros c Hc.
    apply DataFrame_has_rows. now apply drop_labels_incl. }
  assert (Hcast : forall d, has_rows (List.length rows) d ->
            has_rows (List.length rows) (cast_schema FEATURE_ORDER d)).
  { intros d Hd c Hc. apply cast_schema_in in Hc.
    destruct Hc as [c0 [Hc0 ->]]. rewrite cast_col_length. now apply Hd. }
  destruct (prepare_ok_inv rows df Hp) as [_ [[_ ->]|[_ [_ ->]]]];
    apply Hcast; [exact H0|].
  intros c Hc. apply H0. now apply select_columns_incl in Hc.
Qed.

(** X6.  In the frame handed to the model every column declared numeric
    is [float64] and holds floats only, no NaN, no text; and no column
    declared categorical holds a missing value. *)
Theorem prepared_cells_clean :
  forall (rows : list record) (df : frame) (c : column),
    prepare FEATURE_ORDER rows = inr df ->
    In c df ->
    (Text.isin (col_name c) NUMERIC_FEATURES = true ->
       col_dtype c = DFloat /\
       forallb is_float_cell (col_cells c) = true) /\
    (Text.isin (col_name c) (CATEGORICAL_FEATURES FEATURE_ORDER) = true ->
       forallb (fun v => negb (isna v)) (col_cells c) = true).
Proof.
  intros rows df c Hp Hc.
  assert (Hin : exists d, In c (cast_schema FEATURE_ORDER d)).
  { destruct (prepare_ok_inv rows df Hp) as [_ [[_ ->]|[_ [_ ->]]]];
      eexists; exact Hc. }
  destruct Hin as [d Hd]. apply cast_schema_in in Hd.
  destruct Hd as [c0 [_ ->]].
  rewrite cast_categorical_col_name, cast_numeric_col_name.
  split; intro H.
  - rewrite (cast_schema_numeric_col FEATURE_ORDER c0 H). cbn [col_dtype col_cells].
    split; [reflexivity|].
    apply forallb_forall. intros v Hv. apply in_map_iff in Hv.
    now destruct Hv as [v0 [<- _]].
  - rewrite (cast_schema_categorical_col FEATURE_ORDER c0 H). cbn [col_cells].
    apply forallb_forall. intros v Hv. apply in_map_iff in Hv.
    destruct Hv as [v0 [<- _]]. now destruct (isna v0) eqn:E; [|rewrite E].
Qed.

(** X7.  [predict] answers "No rows provided" exactly on the empty
    batch, and the inference error exactly when the frame was prepared
    and the model raised; the missing-columns error of
    [validate_dtypes] never comes out of [predict], and with an unknown
    feature order neither does the one of [predict] itself. *)
Theorem predict_error_causes :
  forall rows : list record,
    (predict FEATURE_ORDER pd_vals_of rows = inl NoRows <-> rows = []) /\
    (predict FEATURE_ORDER pd_vals_of rows = inl InferenceError <->
       exists df, prepare FEATURE_ORDER rows = inr df /\ pd_vals_of df = None) /\
    (forall missing,
       predict FEATURE_ORDER pd_vals_of rows <> inl (MissingColumns missing)) /\
    (FEATURE_ORDER = [] ->
       forall e, predict FEATURE_ORDER pd_vals_of rows = inl e ->
                 is_missing_error e = false).
Proof.
  intro rows.
  assert (Hprep : forall e, prepare FEATURE_ORDER rows = inl e ->
            (e = NoRows /\ rows = []) \/
            (rows <> [] /\ FEATURE_ORDER <> [] /\
             exists m, e = MissingExpected m FEATURE_ORDER)).
  { intros e He. unfold prepare in He. destruct rows as [|r rows].
    - left. now injection He as <-.
    - right. split; [discriminate|].
      destruct FEATURE_ORDER as [|f fs] eqn:Efo.
      + rewrite <- Efo in He.
        rewrite (validate_unknown_order _ Efo) in He. discriminate.
      + rewrite <- Efo in *. split; [congruence|].
        destruct (missing_columns FEATURE_ORDER _) as [|m ms] eqn:Hm.
        * rewrite (validate_after_select FEATURE_ORDER _ Hm) in He.
          discriminate.
        * injection He as <-. now eexists. }
  split; [|split; [|split]].
  - split; [|intros ->; reflexivity].
    unfold predict. destruct (prepare FEATURE_ORDER rows) as [e|df] eqn:Hp.
    + intros [= ->].
      destruct (Hprep _ eq_refl) as [[_ H]|[_ [_ [m H]]]];
        [exact H | discriminate].
    + destruct (pd_vals_of df); discriminate.
  - split.
    + unfold predict. destruct (prepare FEATURE_ORDER rows) as [e|df] eqn:Hp.
      * intros [= ->].
        destruct (Hprep _ eq_refl) as [[H _]|[_ [_ [m H]]]]; discriminate.
      * intro H. exists df. split; [reflexivity|].
        destruct (pd_vals_of df); [discriminate | reflexivity].
    + intros [df [Hp Hv]]. unfold predict. now rewrite Hp, Hv.
  - intro missing. unfold predict.
    destruct (prepare FEATURE_ORDER rows) as [e|df] eqn:Hp.
    + intros [= ->].
      destruct (Hprep _ eq_refl) as [[H _]|[_ [_ [m H]]]]; discriminate.
    + destruct (pd_vals_of df); discriminate.
  - intros Efo e. unfold predict.
    destruct (prepare FEATURE_ORDER rows) as [e0|df] eqn:Hp.
    + intros [= <-].
      destruct (Hprep _ eq_refl) as [[-> _]|[_ [Hfo _]]];
        [reflexivity | contradiction].
    + destruct (pd_vals_of df); [discriminate|]. now intros [= <-].
Qed.

(** X8.  A batch reaches the model exactly when it is not empty and
    its normalized frame has every column of the feature order: no cell
    value, whatever its type or text, makes [predict] reject a batch
    before the model is called. *)
Theorem prepare_succeeds_iff :
  forall rows : list record,
    (exists df, prepare FEATURE_ORDER rows = inr df) <->
    rows <> [] /\
    (forall c, In c FEATURE_ORDER -> has_column (normalized rows) c = true).
Proof.
  intro rows. split.
  - intros [df Hp].
    destruct (prepare_ok_inv rows df Hp) as [Hne [[Efo _]|[_ [Hm _]]]].
    + split; [exact Hne|]. rewrite Efo. intros c [].
    + split; [exact Hne|]. now apply missing_columns_nil.
  - intros [Hne Hall]. apply missing_columns_nil in Hall.
    unfold prepare. destruct rows as [|r rows]; [congruence|].
    destruct FEATURE_ORDER as [|f fs] eqn:Efo.
    + rewrite <- Efo. rewrite (validate_unknown_order _ Efo). now eexists.
    + rewrite <- Efo in *. rewrite Hall.
      rewrite (validate_after_select FEATURE_ORDER _ Hall). now eexists.
Qed.

Lemma cast_col_idem (c : column) :
  cast_categorical_col FEATURE_ORDER
    (cast_numeric_col
       (cast_categorical_col FEATURE_ORDER (cast_numeric_col c)))
  = cast_categorical_col FEATURE_ORDER (cast_numeric_col c).
Proof.
  destruct (Text.isin (col_name c) NUMERIC_FEATURES) eqn:Hn.
  - rewrite (cast_schema_numeric_col FEATURE_ORDER c Hn).
    rewrite cast_schema_numeric_col by exact Hn.
    cbn [col_name col_cells]. f_equal. rewrite map_map.
    apply map_ext. intro v. reflexivity.
  - destruct (Text.isin (col_name c) (CATEGORICAL_FEATURES FEATURE_ORDER))
      eqn:Hc.
    + rewrite (cast_schema_categorical_col FEATURE_ORDER c Hc).
      rewrite cast_schema_categorical_col by exact Hc.
      cbn [col_name col_cells]. f_equal. rewrite map_map.
      apply map_ext. intro v. now destruct (isna v) eqn:E; [|rewrite E].
    + assert (E : cast_categorical_col FEATURE_ORDER (cast_numeric_col c) = c).
      { unfold cast_numeric_col. rewrite Hn.
        unfold cast_categorical_col. now rewrite Hc. }
      now rewrite !E.
Qed.

(** X9.  [cast_schema] is idempotent, keeps the columns and their
    order, and returns unchanged every column that is declared neither
    numeric nor categorical. *)
Theorem cast_schema_idempotent :
  forall df : frame,
    cast_schema FEATURE_ORDER (cast_schema FEATURE_ORDER df)
    = cast_schema FEATURE_ORDER df /\
    columns (cast_schema FEATURE_ORDER df) = columns df /\
    (forall j c,
        nth_error df j = Some c ->
        Text.isin (col_name c) NUMERIC_FEATURES = false ->
        Text.isin (col_name c) (CATEGORICAL_FEATURES FEATURE_ORDER) = false ->
        nth_error (cast_schema FEATURE_ORDER df) j = Some c).
Proof.
  intro df. split; [|split].
  - unfold cast_schema. rewrite !map_map. apply map_ext.
    intro c. apply cast_col_idem.
  - apply cast_schema_columns.
  - intros j c Hj Hn Hc. rewrite cast_schema_nth, Hj. cbn [option_map].
    unfold cast_numeric_col. rewrite Hn.
    unfold cast_categorical_col. now rewrite Hc.
Qed.

(** The check of the dtypes alone, as [validate_dtypes] makes it. *)
Lemma wrong_dtypes_nil (df : frame) :
  filter (fun c => Text.isin (col_name c) NUMERIC_FEATURES
                   && negb (is_number_dtype (col_dtype c))) df = []
  <-> forall c, In c df ->
        Text.isin (col_name c) NUMERIC_FEATURES = true ->
        is_number_dtype (col_dtype c) = true.
Proof.
  split.
  - intros H c Hc Hn.
    destruct (is_number_dtype (col_dtype c)) eqn:E; [reflexivity|].
    assert (Hin : In c (filter (fun c => Text.isin (col_name c) NUMERIC_FEATURES
                     && negb (is_number_dtype (col_dtype c))) df))
      by (apply filter_In; split; [exact Hc | now rewrite Hn, E]).
    rewrite H in Hin. contradiction.
  - intro H. apply filter_none. intros c Hc.
    destruct (Text.isin (col_name c) NUMERIC_FEATURES) eqn:Hn; [|reflexivity].
    now rewrite (H c Hc Hn).
Qed.

(** X10.  On any frame [validate_dtypes] passes exactly when every
    feature of the order is a column and every column with a numeric
    name has a number dtype.  An absent feature is reported first,
    whatever the dtypes, with all the absent names in feature order;
    otherwise the error lists just the numeric-named columns whose
    dtype is not a number, each with that dtype. *)
Theorem validate_dtypes_verdict :
  forall df : frame,
    (validate_dtypes FEATURE_ORDER df = None <->
       (forall c, In c FEATURE_ORDER -> has_column df c = true) /\
       (forall c, In c df ->
          Text.isin (col_name c) NUMERIC_FEATURES = true ->
          is_number_dtype (col_dtype c) = true)) /\
    ((exists c, In c FEATURE_ORDER /\ has_column df c = false) ->
       validate_dtypes FEATURE_ORDER df
       = Some (MissingColumns (missing_columns FEATURE_ORDER df))) /\
    ((forall c, In c FEATURE_ORDER -> has_column df c = true) ->
     forall wrong,
       validate_dtypes FEATURE_ORDER df = Some (NotNumeric wrong) ->
       forall name t,
         In (name, t) wrong <->
         exists c, In c df /\ col_name c = name /\ col_dtype c = t /\
                   Text.isin name NUMERIC_FEATURES = true /\
                   is_number_dtype t = false).
Proof.
  clear pd_vals_of. intro df.
  assert (Hinner : match FEATURE_ORDER with
                   | [] => []
                   | _ :: _ => missing_columns FEATURE_ORDER df
                   end = missing_columns FEATURE_ORDER df).
  { unfold missing_columns. now destruct FEATURE_ORDER. }
  unfold validate_dtypes. rewrite Hinner. clear Hinner.
  set (bad := fun c : column =>
                Text.isin (col_name c) NUMERIC_FEATURES
                && negb (is_number_dtype (col_dtype c))).
  split; [|split].
  - rewrite <- missing_columns_nil, <- wrong_dtypes_nil. fold bad.
    destruct (missing_columns FEATURE_ORDER df) as [|m ms].
    + destruct (filter bad df) as [|x xs]; cbn [map].
      * tauto.
      * split; [discriminate | intros [_ H]; discriminate].
    + split; [discriminate | intros [H _]; discriminate].
  - intros [c Hc]. apply (missing_columns_In FEATURE_ORDER) in Hc.
    destruct (missing_columns FEATURE_ORDER df); [contradiction | reflexivity].
  - intros Hall wrong Hv name t.
    apply missing_columns_nil in Hall. rewrite Hall in Hv.
    assert (Hw : wrong = map (fun c => (col_name c, col_dtype c))
                           (filter bad df)).
    { destruct (map _ (filter bad df)) eqn:E; [discriminate|].
      now injection Hv as <-. }
    rewrite Hw, in_map_iff. split.
    + intros [c [[= <- <-] Hc]]. apply filter_In in Hc.
      destruct Hc as [Hc Hb]. unfold bad in Hb.
      apply andb_true_iff in Hb. destruct Hb as [Hn Ht].
      apply negb_true_iff in Ht. now exists c.
    + intros [c [Hc [<- [<- [Hn Ht]]]]]. exists c. split; [reflexivity|].
      apply filter_In. split; [exact Hc|]. unfold bad. now rewrite Hn, Ht.
Qed.

Lemma build_results_zip (rows : list record) (pd_vals : list Q) :
  List.length (build_results rows pd_vals)
  = Nat.min (List.length rows) (List.length pd_vals) /\
  map pd (build_results rows pd_vals)
  = firstn (List.length rows) pd_vals /\
  map user_id (build_results rows pd_vals)
  = firstn (List.length pd_vals) (map identifier_of rows) /\
  (forall r, In r (build_results rows pd_vals) ->
     risk_band r = Risk.band (pd r) /\
     credit_score r = Risk.pd_to_score (pd r)).
Proof.
  revert pd_vals. induction rows as [|row rows IH]; intros [|p ps];
    cbn [build_results List.length map firstn Nat.min];
    try (split; [reflexivity|]; split; [reflexivity|];
         split; [reflexivity|]; intros r []).
  destruct (IH ps) as [H1 [H2 [H3 H4]]].
  rewrite H1, H2, H3.
  split; [reflexivity|]. split; [reflexivity|]. split.
  - cbn [user_id]. unfold identifier_of.
    now destruct (row_get row "user_id").
  - intros r [<-|Hr]; [split; reflexivity | now apply H4].
Qed.


Lemma get_column_app (a b : frame) (c : string) :
  get_column (a ++ b)%list c
  = match get_column a c with
    | Some col => Some col
    | None => get_column b c
    end.
Proof.
  induction a as [|x a IH]; simpl; [reflexivity|].
  now destruct (String.eqb (col_name x) c).
Qed.

Lemma get_column_absent (df : frame) (c : string) :
  get_column df c = None <-> has_column df c = false.
Proof.
  unfold has_column. rewrite isin_not_In. unfold columns.
  induction df as [|x df IH]; simpl; [tauto|].
  destruct (String.eqb (col_name x) c) eqn:E.
  - apply String.eqb_eq in E. split; [discriminate|]. intro H. tauto.
  - apply String.eqb_neq in E. rewrite IH. tauto.
Qed.

Lemma select_columns_get (df : frame) (c : string) :
  get_column (select_columns FEATURE_ORDER df) c
  = if Text.isin c FEATURE_ORDER then get_column df c else None.
Proof.
  unfold select_columns, Text.isin.
  induction FEATURE_ORDER as [|k l IH]; [reflexivity|].
  cbn [flat_map existsb]. rewrite get_column_app, IH.
  destruct (String.eqb c k) eqn:E.
  - apply String.eqb_eq in E. subst k. cbn [orb].
    destruct (get_column df c) as [col|] eqn:Hg.
    + cbn [get_column]. rewrite (get_column_name df c col Hg).
      now rewrite String.eqb_refl.
    + cbn [get_column]. now destruct (existsb _ l).
  - cbn [orb].
    destruct (get_column df k) as [col|] eqn:Hg; [|reflexivity].
    cbn [get_column]. rewrite (get_column_name df k col Hg).
    rewrite String.eqb_sym, E. reflexivity.
Qed.



(** X13.  The names of the feature order split into the numeric and the
    categorical ones: each is exactly one of the two, and no name at all
    is both. *)
Theorem feature_order_partition :
  forall c : string,
    (In c FEATURE_ORDER ->
       Text.isin c (CATEGORICAL_FEATURES FEATURE_ORDER)
       = negb (Text.isin c NUMERIC_FEATURES)) /\
    ~ (Text.isin c NUMERIC_FEATURES = true /\
       Text.isin c (CATEGORICAL_FEATURES FEATURE_ORDER) = true).
Proof.
  intro c. split.
  - intro Hc. destruct (Text.isin c NUMERIC_FEATURES) eqn:Hn.
    + now apply categorical_not_numeric.
    + cbn [negb]. apply isin_In. unfold CATEGORICAL_FEATURES.
      destruct FEATURE_ORDER as [|f fs] eqn:Efo; [contradiction|].
      rewrite <- Efo in *. apply filter_In. split; [exact Hc|].
      now rewrite Hn.
  - intros [Hn Hc].
    rewrite (categorical_not_numeric FEATURE_ORDER c Hn) in Hc.
    discriminate.
Qed.

Lemma prepare_restrict (keep : string -> bool) (rows : list record) :
  FEATURE_ORDER <> [] ->
  (forall c, In c FEATURE_ORDER -> keep c = true) ->
  prepare FEATURE_ORDER (map (restrict_keys keep) rows)
  = prepare FEATURE_ORDER rows.
Proof.
  intros Hfo Hkeep. destruct rows as [|r rows]; [reflexivity|].
  unfold prepare.
  change (restrict_keys keep r :: map (restrict_keys keep) rows)
    with (map (restrict_keys keep) (r :: rows)).
  rewrite DataFrame_restrict, drop_labels_restrict,
    normalize_strings_restrict.
  set (df := normalize_strings (drop_labels (DataFrame (r :: rows)))).
  set (kdf := filter (fun c : column => keep (col_name c)) df).
  assert (Hmiss : missing_columns FEATURE_ORDER kdf
                  = missing_columns FEATURE_ORDER df).
  { unfold missing_columns. apply filter_ext_in. intros c Hc.
    unfold kdf. now rewrite has_column_restrict by auto. }
  assert (Hsel : select_columns FEATURE_ORDER kdf
                 = select_columns FEATURE_ORDER df).
  { unfold select_columns. rewrite !flat_map_concat_map. f_equal.
    apply map_ext_in. intros c Hc.
    unfold kdf. now rewrite get_column_restrict by auto. }
  destruct FEATURE_ORDER as [|f fs] eqn:Efo; [congruence|].
  rewrite <- Efo in *. now rewrite Hmiss, Hsel.
Qed.

(** X14.  With a known feature order, what a row holds under keys that
    are neither features nor "user_id" has no effect: [predict] answers
    the batch as it answers the batch reduced to the other keys, results
    and errors alike. *)
Theorem predict_ignores_other_keys :
  forall (keep : string -> bool) (rows : list record),
    FEATURE_ORDER <> [] ->
    (forall c, In c FEATURE_ORDER -> keep c = true) ->
    keep "user_id" = true ->
    predict FEATURE_ORDER pd_vals_of (map (restrict_keys keep) rows)
    = predict FEATURE_ORDER pd_vals_of rows.
Proof.
  intros keep rows Hfo Hkeep Huid. unfold predict.
  rewrite (prepare_restrict keep rows Hfo Hkeep).
  destruct (prepare FEATURE_ORDER rows); [reflexivity|].
  destruct (pd_vals_of _); [|reflexivity].
  now rewrite build_results_restrict.
Qed.

(** Why a preparation failed. *)
Lemma prepare_error_inv (rows : list record) (e : error) :
  prepare FEATURE_ORDER rows = inl e ->
  (e = NoRows /\ rows = []) \/
  (rows <> [] /\ FEATURE_ORDER <> [] /\
   missing_columns FEATURE_ORDER (normalized rows) <> [] /\
   e = MissingExpected (missing_columns FEATURE_ORDER (normalized rows))
         FEATURE_ORDER).
Proof.
  intro He. unfold prepare in He. destruct rows as [|r rows].
  - left. now injection He as <-.
  - right. split; [discriminate|].
    destruct FEATURE_ORDER as [|f fs] eqn:Efo.
    + rewrite <- Efo in He.
      rewrite (validate_unknown_order _ Efo) in He. discriminate.
    + rewrite <- Efo in *. split; [congruence|].
      destruct (missing_columns FEATURE_ORDER _) as [|m ms] eqn:Hm.
      * rewrite (validate_after_select FEATURE_ORDER _ Hm) in He.
        discriminate.
      * split; [discriminate|]. now injection He as <-.
Qed.

(** X17.  The three endpoints agree on the feature order: [root] says
    it is known exactly when [required_features] counts at least one
    feature; a batch that [predict] rejects for missing columns is
    rejected with the list [required_features] reports, the missing
    names being some of it, and only when [root] says the order is
    known; and then a frame that reaches the model has exactly the
    reported columns. *)
Theorem endpoints_agree :
  ok (root FEATURE_ORDER) = true /\
  (feature_order_known (root FEATURE_ORDER) = true <->
     (0 < count (required_features FEATURE_ORDER))%nat) /\
  (forall rows e,
     predict FEATURE_ORDER pd_vals_of rows = inl e ->
     is_missing_error e = true ->
     feature_order_known (root FEATURE_ORDER) = true /\
     exists missing,
       e = MissingExpected missing (required (required_features FEATURE_ORDER))
       /\ missing <> []
       /\ incl missing (required (required_features FEATURE_ORDER))) /\
  (forall rows df,
     prepare FEATURE_ORDER rows = inr df ->
     feature_order_known (root FEATURE_ORDER) = true ->
     columns df = required (required_features FEATURE_ORDER)).
Proof.
  assert (Hknown : feature_order_known (root FEATURE_ORDER) = true
                   <-> FEATURE_ORDER <> []).
  { unfold root. cbn [feature_order_known].
    destruct FEATURE_ORDER; split; congruence. }
  split; [reflexivity|]. split; [|split].
  - rewrite Hknown. unfold required_features. cbn [count].
    destruct FEATURE_ORDER; cbn [List.length]; split; intro H;
      try congruence; lia.
  - intros rows e He Hmiss. unfold predict in He.
    destruct (prepare FEATURE_ORDER rows) as [e0|df] eqn:Hp.
    + injection He as <-.
      destruct (prepare_error_inv rows e0 Hp)
        as [[-> _]|[_ [Hfo [Hne ->]]]]; [discriminate|].
      split; [now apply Hknown|].
      eexists. split; [reflexivity|]. split; [exact Hne|].
      intros c Hc. apply missing_columns_In in Hc. tauto.
    + destruct (pd_vals_of df); [discriminate|].
      injection He as <-. discriminate.
  - intros rows df Hp Hk. apply Hknown in Hk.
    destruct (prepare_ok_inv rows df Hp) as [_ [[Efo _]|[_ [Hm ->]]]];
      [congruence|].
    rewrite cast_schema_columns. now apply select_columns_names.
Qed.


Local Abbreviation cast_col c :=
  (cast_categorical_col FEATURE_ORDER (cast_numeric_col c)).

Local Abbreviation normalize_col c :=
  (numeric_like_col (placeholders_col c)).

(** A column of the frame handed to the model is the column of that
    key in the frame of the raw rows, normalized and cast. *)
Lemma prepared_column (rows : list record) (df : frame) (k : string)
  (c : column) :
  prepare FEATURE_ORDER rows = inr df ->
  get_column df k = Some c ->
  c = cast_col (normalize_col (infer_column k (raw_cells rows k))).
Proof.
  intros Hp Hc.
  assert (Hcast : forall X, get_column (cast_schema FEATURE_ORDER X) k = Some c ->
            exists c0, get_column X k = Some c0 /\ c = cast_col c0).
  { intros X H. unfold cast_schema in H. rewrite map_map in H.
    rewrite (get_column_map (fun c => cast_col c)) in H
      by (intro x; now rewrite cast_categorical_col_name, cast_numeric_col_name).
    destruct (get_column X k) as [c0|]; [|discriminate].
    injection H as <-. now exists c0. }
  destruct (prepare_ok_inv rows df Hp) as [_ [[_ ->]|[_ [_ ->]]]];
    destruct (Hcast _ Hc) as [c0 [H0 ->]].
  - now rewrite <- (get_column_normalized rows k c0 H0).
  - rewrite select_columns_get in H0.
    destruct (Text.isin k FEATURE_ORDER); [|discriminate].
    now rewrite <- (get_column_normalized rows k c0 H0).
Qed.

Lemma has_column_get_some (df : frame) (k : string) :
  has_column df k = true -> exists c, get_column df k = Some c.
Proof. apply has_column_get. Qed.

(** The numeric cell of a row in the frame handed to the model. *)
Lemma numeric_cell_of_row :
  forall (rows : list record) (df : frame) (k : string) (i : nat)
         (r : record),
    prepare FEATURE_ORDER rows = inr df ->
    has_column df k = true ->
    Text.isin k NUMERIC_FEATURES = true ->
    nth_error rows i = Some r ->
    is_bool (raw_value r k) = false ->
    exists y,
      cell_at df k i = Some (VNum y) /\
      Num.to_Q y == Num.to_Q (numeric_reading (raw_value r k)).
Proof.
  intros rows df k i r Hp Hk Hn Hi Hb.
  destruct (has_column_get_some df k Hk) as [c Hc].
  unfold cell_at. rewrite Hc.
  rewrite (prepared_column rows df k c Hp Hc).
  set (cells := raw_cells rows k).
  pose proof (raw_cells_nth rows k i r Hi) as Hv. fold cells in Hv.
  set (v := raw_value r k) in *.
  assert (Hin : In v cells) by (eapply nth_error_In; exact Hv).
  rewrite cast_schema_numeric_col
    by (now rewrite numeric_like_col_name, placeholders_col_name,
          infer_column_name).
  cbn [col_cells]. rewrite nth_error_map.
  unfold infer_column.
  destruct (forallb is_bool cells) eqn:Eb.
  { rewrite forallb_forall in Eb. rewrite (Eb v Hin) in Hb. discriminate. }
  destruct (forallb is_int cells) eqn:Ei.
  { rewrite normalize_col_other by (cbn; congruence). cbn [col_cells].
    rewrite Hv. cbn [option_map].
    rewrite forallb_forall in Ei. specialize (Ei v Hin).
    destruct v; try discriminate Ei. cbn [to_numeric].
    eexists. split; [reflexivity|].
    unfold numeric_reading. rewrite normalize_cell_int. reflexivity. }
  destruct (forallb is_numeric_or_null cells && negb (forallb is_none cells))
    eqn:Ef.
  { rewrite normalize_col_other by (cbn; congruence). cbn [col_cells].
    rewrite nth_error_map, Hv. cbn [option_map].
    apply andb_true_iff in Ef. destruct Ef as [Ef _].
    rewrite forallb_forall in Ef. specialize (Ef v Hin).
    unfold numeric_reading.
    destruct v; try discriminate Ef; cbn [as_float_cell to_numeric];
      eexists; (split; [reflexivity|]).
    - reflexivity.
    - reflexivity.
    - rewrite normalize_cell_int. reflexivity.
    - rewrite normalize_cell_num. symmetry. apply NumFacts.to_Q_normal. }
  rewrite normalize_col_object by reflexivity. cbn [col_cells].
  rewrite nth_error_map, Hv. cbn [option_map].
  rewrite to_numeric_normalize_cell. unfold numeric_reading.
  eexists. split; [reflexivity|]. now destruct (normalize_cell v).
Qed.




(** X21.  A boolean given for a numeric feature reaches the model as
    1.0 or 0.0 when every row gives a boolean under that key; as soon
    as one row gives anything else, or nothing, every boolean under the
    key reaches the model as 0.0. *)
Theorem boolean_numeric_feature_of_row :
  forall (rows : list record) (df : frame) (k : string) (i : nat)
         (r : record) (b : bool),
    prepare FEATURE_ORDER rows = inr df ->
    has_column df k = true ->
    Text.isin k NUMERIC_FEATURES = true ->
    nth_error rows i = Some r ->
    row_get r k = Some (VBool b) ->
    cell_at df k i
    = Some (VNum (if forallb is_bool (raw_cells rows k)
                  then Num.of_Z (if b then 1 else 0)
                  else zero)).
Proof.
  intros rows df k i r b Hp Hk Hn Hi Hb.
  destruct (has_column_get_some df k Hk) as [c Hc].
  unfold cell_at. rewrite Hc.
  rewrite (prepared_column rows df k c Hp Hc).
  set (cells := raw_cells rows k).
  pose proof (raw_cells_nth rows k i r Hi) as Hv. fold cells in Hv.
  unfold raw_value in Hv. rewrite Hb in Hv.
  assert (Hin : In (VBool b) cells) by (eapply nth_error_In; exact Hv).
  rewrite cast_schema_numeric_col
    by (now rewrite numeric_like_col_name, placeholders_col_name,
          infer_column_name).
  cbn [col_cells]. rewrite nth_error_map.
  unfold infer_column.
  destruct (forallb is_bool cells) eqn:Eb.
  - rewrite normalize_col_other by (cbn; congruence). cbn [col_cells].
    now rewrite Hv.
  - destruct (forallb is_int cells) eqn:Ei.
    { rewrite forallb_forall in Ei. discriminate (Ei _ Hin). }
    destruct (forallb is_numeric_or_null cells) eqn:Ef.
    { rewrite forallb_forall in Ef. discriminate (Ef _ Hin). }
    cbn [andb]. rewrite normalize_col_object by reflexivity.
    cbn [col_cells]. rewrite nth_error_map, Hv. cbn [option_map].
    now destruct b.
Qed.

(** X22.  A feature order that names a label column cannot be served:
    the label is dropped before the columns are checked, so every
    non-empty batch is rejected with that name among the missing
    ones, whether the rows hold it or not. *)
Theorem label_in_feature_order_rejected :
  forall (c : string) (rows : list record),
    In c FEATURE_ORDER ->
    In c label_columns ->
    rows <> [] ->
    exists missing,
      predict FEATURE_ORDER pd_vals_of rows
      = inl (MissingExpected missing FEATURE_ORDER) /\
      In c missing.
Proof.
  intros c rows Hfo Hlabel Hne.
  assert (Habs : has_column (normalized rows) c = false).
  { unfold has_column. rewrite normalize_strings_columns.
    now apply drop_labels_no_label. }
  assert (Hin : In c (missing_columns FEATURE_ORDER (normalized rows)))
    by (apply missing_columns_In; now split).
  unfold predict.
  destruct (prepare FEATURE_ORDER rows) as [e|df] eqn:Hp.
  - destruct (prepare_error_inv rows e Hp) as [[_ ->]|[_ [_ [_ ->]]]];
      [congruence|].
    eexists. split; [reflexivity | exact Hin].
  - destruct (prepare_ok_inv rows df Hp) as [_ [[Efo _]|[_ [Hm _]]]].
    + rewrite Efo in Hfo. contradiction.
    + rewrite Hm in Hin. contradiction.
Qed.


End PipelineMoreFacts.

(** *** The facts above at sample inputs *)

(** The sample rows with the order ["age"; "location"]. *)
Lemma prepared_columns_witness :
  prepare sample_order sample_rows = inr sample_frame /\
  columns sample_frame = sample_order.
Proof.
  split; [reflexivity|].
  apply (proj1 (prepared_columns sample_order sample_rows sample_frame
                  eq_refl)).
  discriminate.
Defined.

Lemma prepared_row_count_witness :
  has_rows (List.length sample_rows) sample_frame.
Proof.
  exact (prepared_row_count sample_order sample_rows sample_frame eq_refl).
Defined.

Lemma prepared_cells_clean_witness :
  forallb is_float_cell [VNum (Num.of_Z 45); VNum (Num.of_Z 30)] = true.
Proof.
  apply (proj1 (prepared_cells_clean sample_order sample_rows sample_frame
                  (mk_col "age" DFloat [VNum (Num.of_Z 45); VNum (Num.of_Z 30)])
                  eq_refl (or_introl eq_refl))).
  reflexivity.
Defined.

(** An unknown feature order: the empty batch, and the sample rows. *)
Lemma predict_error_causes_witness :
  predict [] sample_model [] = inl NoRows /\
  forall e, predict [] sample_model sample_rows = inl e ->
            is_missing_error e = false.
Proof.
  split.
  - apply (proj1 (predict_error_causes [] sample_model [])). reflexivity.
  - apply (proj2 (proj2 (proj2
             (predict_error_causes [] sample_model sample_rows)))).
    reflexivity.
Defined.

Lemma prepare_succeeds_iff_witness :
  exists df, prepare sample_order sample_rows = inr df.
Proof.
  apply (proj2 (prepare_succeeds_iff sample_order sample_rows)).
  split; [discriminate|].
  intros c [<-|[<-|[]]]; reflexivity.
Defined.

(** A "user_id" column is of no concern to [cast_schema]. *)
Lemma cast_schema_idempotent_witness :
  nth_error (cast_schema sample_order [mk_col "user_id" DObject [VNone]]) 0
  = Some (mk_col "user_id" DObject [VNone]).
Proof.
  apply (proj2 (proj2 (cast_schema_idempotent sample_order
                         [mk_col "user_id" DObject [VNone]])));
    reflexivity.
Defined.

(** A frame without "location", and with a textual "age". *)
Lemma validate_dtypes_verdict_witness :
  validate_dtypes sample_order [mk_col "age" DObject [VStr "45"]]
  = Some (MissingColumns ["location"]).
Proof.
  apply (proj1 (proj2 (validate_dtypes_verdict sample_order
                         [mk_col "age" DObject [VStr "45"]]))).
  exists "location". split; [right; left; reflexivity | reflexivity].
Defined.


Lemma feature_order_partition_witness :
  Text.isin "location" (CATEGORICAL_FEATURES sample_order) = true.
Proof.
  apply (proj1 (feature_order_partition sample_order "location")).
  right; left; reflexivity.
Defined.

(** The sample rows without "note" and "target". *)
Lemma predict_ignores_other_keys_witness :
  predict sample_order sample_model
    (map (restrict_keys sample_keep) sample_rows)
  = predict sample_order sample_model sample_rows.
Proof.
  apply predict_ignores_other_keys.
  - discriminate.
  - intros c [<-|[<-|[]]]; reflexivity.
  - reflexivity.
Defined.



(** A row without "location" against the sample order. *)
Lemma endpoints_agree_witness :
  feature_order_known (root sample_order) = true /\
  exists missing,
    MissingExpected ["location"] sample_order
    = MissingExpected missing (required (required_features sample_order))
    /\ missing <> []
    /\ incl missing (required (required_features sample_order)).
Proof.
  apply (proj1 (proj2 (proj2 (endpoints_agree sample_order sample_model)))
           [[("age", VInt 30)]]); reflexivity.
Defined.




(** "age" given as a boolean by one row and as a text by another. *)
Lemma boolean_numeric_feature_of_row_witness :
  exists df,
    prepare ["age"] [[("age", VBool true)]; [("age", VStr "x")]] = inr df /\
    cell_at df "age" 0 = Some (VNum zero).
Proof.
  eexists. split; [reflexivity|].
  exact (boolean_numeric_feature_of_row ["age"]
           [[("age", VBool true)]; [("age", VStr "x")]] _ "age" 0
           [("age", VBool true)] true eq_refl eq_refl eq_refl eq_refl eq_refl).
Defined.

(** A feature order that names "target". *)
Lemma label_in_feature_order_rejected_witness :
  exists missing,
    predict ["age"; "target"] sample_model sample_rows
    = inl (MissingExpected missing ["age"; "target"]) /\
    In "target" missing.
Proof.
  apply (label_in_feature_order_rejected ["age"; "target"] sample_model
           "target" sample_rows).
  - right; left; reflexivity.
  - right; left; reflexivity.
  - discriminate.
Defined.


End PipelineMore.
